(** * The ARG test codec of autotest/gdrivers/arg.py

    The test module writes its own fixtures: [pack] and [encode] turn a list
    of Python values into the raw payload of an [.arg] file with
    [struct.pack], one big-endian fixed-width cell per value, [None] standing
    for "no data".  This development embeds those two functions, the table
    [argTests] of formats, sentinels and cell values, and the fragment of
    Python's [struct] module they rely on, and relates them to the reader
    described by the specification. *)

From Stdlib Require Import String Ascii.
From Stdlib Require Import ZArith List Bool Lia.
From Stdlib.Strings Require Import Byte.
From Stdlib Require Import Floats.
From Stdlib Require Import DecimalString.
Import ListNotations.

Local Open Scope Z_scope.

(* Decimal literals such as 1.1 denote, as in Python, the nearest binary64. *)
Set Warnings "-inexact-float".

(** ** Exceptions and results *)

(** The exceptions that the modelled code can raise.  [StructError] is
    [struct.error]; [TruncatedDataError] belongs to the reader of the
    specification.  [NotModelled] is no exception of the code: it marks an
    input outside the fragment of [struct] that is modelled, of which
    nothing is said. *)
Inductive exn : Set :=
| StructError
| OverflowError
| TruncatedDataError
| NotModelled.

Inductive result (A : Type) : Type :=
| Ok (a : A)
| Raise (e : exn).

Arguments Ok {A} a.
Arguments Raise {A} e.

Definition bind {A B : Type} (r : result A) (k : A -> result B) : result B :=
  match r with
  | Ok a => k a
  | Raise e => Raise e
  end.

Notation "x <- r ;; k" := (bind r (fun x => k))
  (at level 61, r at next level, right associativity).

(** [[f x for x in xs]]: the elements are evaluated left to right and the
    first exception aborts the comprehension. *)
Fixpoint traverse {A B : Type} (f : A -> result B) (xs : list A)
  : result (list B) :=
  match xs with
  | [] => Ok []
  | x :: xs' => y <- f x ;; ys <- traverse f xs' ;; Ok (y :: ys)
  end.

(** ** Python values *)

(** The values that occur in the test data: [None], integers of unbounded
    size, and floats (IEEE-754 binary64).  [PyFloat x] is a float that is
    not a NaN, or, for the one NaN of [float], the NaN that [float('nan')]
    returns: sign bit clear, fraction [2 ^ 51].  [PyNaN sign fraction] is
    any other NaN, by its sign bit and the 52 bits of its fraction. *)
Inductive pyval : Set :=
| PyNone
| PyInt (z : Z)
| PyFloat (x : float)
| PyNaN (sign : bool) (fraction : Z).

(** ** Bytes and big-endian integers *)

Definition byte_of_Z (z : Z) : byte :=
  match Byte.of_N (Z.to_N (z mod 256)) with
  | Some b => b
  | None => x00
  end.

Definition Z_of_byte (b : byte) : Z := Z.of_N (Byte.to_N b).

(** The [w] low-order bytes of [n], most significant first.  On a negative
    [n] the shifts read its two's-complement expansion. *)
Fixpoint be_bytes (w : nat) (n : Z) : list byte :=
  match w with
  | O => []
  | S w' => byte_of_Z (Z.shiftr n (8 * Z.of_nat w')) :: be_bytes w' n
  end.

(** The unsigned integer a big-endian byte string denotes. *)
Definition be_int (bs : list byte) : Z :=
  fold_left (fun acc b => acc * 256 + Z_of_byte b) bs 0.

(** ** IEEE-754 interchange formats *)

Module IEEE.

(** An interchange format with [mw] trailing significand bits and [ew]
    exponent bits; binary32 is [(23, 8)], binary64 is [(52, 11)]. *)
Record format : Set := { mw : Z; ew : Z }.

Definition binary32 : format := {| mw := 23; ew := 8 |}.
Definition binary64 : format := {| mw := 52; ew := 11 |}.

(** Precision and maximal exponent in the conventions of [SpecFloat]. *)
Definition fprec (f : format) : Z := mw f + 1.
Definition femax (f : format) : Z := 2 ^ (ew f - 1).
Definition femin (f : format) : Z := 3 - femax f - fprec f.

Definition sign_bit (f : format) (s : bool) : Z :=
  if s then 2 ^ (mw f + ew f) else 0.

(** The bit pattern of a float.  The one NaN of [spec_float] gets the
    pattern of the default quiet NaN, the one [float('nan')] has. *)
Definition bits_of_SF (f : format) (x : spec_float) : Z :=
  match x with
  | S754_zero s => sign_bit f s
  | S754_infinity s => sign_bit f s + (2 ^ ew f - 1) * 2 ^ mw f
  | S754_nan => (2 ^ ew f - 1) * 2 ^ mw f + 2 ^ (mw f - 1)
  | S754_finite s m e =>
      if Z.pos m <? 2 ^ mw f
      then sign_bit f s + Z.pos m
      else sign_bit f s + (e - femin f + 1) * 2 ^ mw f
           + (Z.pos m - 2 ^ mw f)
  end.

(** The float a bit pattern denotes; every pattern with an all-ones
    exponent and a non-zero fraction is a NaN. *)
Definition SF_of_bits (f : format) (b : Z) : spec_float :=
  let s := Z.testbit b (mw f + ew f) in
  let ef := Z.shiftr b (mw f) mod 2 ^ ew f in
  let mf := b mod 2 ^ mw f in
  if ef =? 0 then
    match mf with
    | Z.pos m => S754_finite s m (femin f)
    | _ => S754_zero s
    end
  else if ef =? 2 ^ ew f - 1 then
    if mf =? 0 then S754_infinity s else S754_nan
  else
    match mf + 2 ^ mw f with
    | Z.pos m => S754_finite s m (ef + femin f - 1)
    | _ => S754_zero s
    end.

(** Conversion of a float to format [f], rounding to nearest, ties to
    even; a finite value beyond the range becomes an infinity. *)
Definition convert (f : format) (x : spec_float) : spec_float :=
  match x with
  | S754_finite s m e => binary_round (fprec f) (femax f) s m e
  | _ => x
  end.

Definition is_infinite (x : spec_float) : bool :=
  match x with
  | S754_infinity _ => true
  | _ => false
  end.

Definition is_nan (x : spec_float) : bool :=
  match x with
  | S754_nan => true
  | _ => false
  end.

End IEEE.

(** ** The fragment of Python's [struct] module used by the tests *)

(** The format characters of the table [argTests]. *)
Inductive code : Set :=
| code_b | code_B | code_h | code_H | code_i | code_I | code_q | code_Q
| code_f | code_d.

Definition code_of_ascii (c : ascii) : option code :=
  match c with
  | "b"%char => Some code_b
  | "B"%char => Some code_B
  | "h"%char => Some code_h
  | "H"%char => Some code_H
  | "i"%char => Some code_i
  | "I"%char => Some code_I
  | "q"%char => Some code_q
  | "Q"%char => Some code_Q
  | "f"%char => Some code_f
  | "d"%char => Some code_d
  | _ => None
  end.

(** The format strings modelled: [">"] (big-endian, standard sizes, no
    alignment) followed by one format character.  [None] marks a format
    string outside this fragment. *)
Definition parse_fmt (fmt : string) : option code :=
  match fmt with
  | String ">" (String c EmptyString) => code_of_ascii c
  | _ => None
  end.

(** What a format character packs. *)
Inductive kind : Set :=
| Signed
| Unsigned
| Floating.

Definition code_kind (c : code) : kind :=
  match c with
  | code_b | code_h | code_i | code_q => Signed
  | code_B | code_H | code_I | code_Q => Unsigned
  | code_f | code_d => Floating
  end.

(** Standard sizes, in bytes. *)
Definition code_size (c : code) : nat :=
  match c with
  | code_b | code_B => 1
  | code_h | code_H => 2
  | code_i | code_I | code_f => 4
  | code_q | code_Q | code_d => 8
  end.

Definition code_bits (c : code) : Z := 8 * Z.of_nat (code_size c).

(** The least and greatest integer an integer format accepts. *)
Definition code_min (c : code) : Z :=
  match code_kind c with
  | Signed => - 2 ^ (code_bits c - 1)
  | _ => 0
  end.

Definition code_max (c : code) : Z :=
  match code_kind c with
  | Signed => 2 ^ (code_bits c - 1) - 1
  | _ => 2 ^ code_bits c - 1
  end.

Definition in_range (c : code) (z : Z) : bool :=
  (code_min c <=? z) && (z <=? code_max c).

Definition code_format (c : code) : IEEE.format :=
  match c with
  | code_f => IEEE.binary32
  | _ => IEEE.binary64
  end.

(** [struct.calcsize] on the format strings of the fragment.  It is zero
    outside the fragment, where [struct_pack] is [NotModelled]: that zero
    is no size the code computes, and nothing is derived from it. *)
Definition calcsize (fmt : string) : nat :=
  match parse_fmt fmt with
  | Some c => code_size c
  | None => O
  end.

(** [PyFloat_AsDouble] on an argument of [struct.pack]: a float is taken as
    it is, an integer is rounded to the nearest float, and every failure
    ([None], an integer beyond the floats) is reported as [struct.error].
    A NaN is a NaN; [struct_pack] packs those of [PyNaN] by their bits. *)
Definition as_double (v : pyval) : result spec_float :=
  match v with
  | PyFloat x => Ok (Prim2SF x)
  | PyInt z =>
      let x := binary_normalize prec emax z 0 false in
      if IEEE.is_infinite x then Raise StructError else Ok x
  | PyNone => Raise StructError
  | PyNaN _ _ => Ok S754_nan
  end.

(** Packing a float: [d] stores the float itself, [f] the nearest binary32
    and raises [OverflowError] when a finite float is too large for it.
    The NaN of [spec_float] is the default NaN here; the other NaNs are
    packed by [pack_nan]. *)
Definition pack_float (c : code) (x : spec_float) : result (list byte) :=
  let f := code_format c in
  let y := match c with code_f => IEEE.convert f x | _ => x end in
  if IEEE.is_infinite y && negb (IEEE.is_infinite x)
  then Raise OverflowError
  else Ok (be_bytes (code_size c) (IEEE.bits_of_SF f y)).

(** The NaNs that [PyNaN] stands for: a fraction of 52 bits that is not
    zero, the NaN of [float('nan')] left out. *)
Definition nan_fraction (sign : bool) (fraction : Z) : bool :=
  (0 <? fraction) && (fraction <? 2 ^ 52)
  && negb (negb sign && (fraction =? 2 ^ 51)).

(** Packing a NaN: [d] stores its bits as they are.  What [f] stores is
    the conversion to binary32 of the platform, which is not modelled. *)
Definition pack_nan (c : code) (sign : bool) (fraction : Z)
  : result (list byte) :=
  match c with
  | code_d =>
      if nan_fraction sign fraction
      then Ok (be_bytes 8 (IEEE.sign_bit IEEE.binary64 sign
                           + (2 ^ IEEE.ew IEEE.binary64 - 1)
                             * 2 ^ IEEE.mw IEEE.binary64
                           + fraction))
      else Raise NotModelled
  | _ => Raise NotModelled
  end.

(** [struct.pack(fmt, value)] for one value.  Integer formats demand an
    integer within the range of the format, and raise [struct.error]
    otherwise; the bytes are the two's-complement representation, big-endian.
    Floating formats take a float or an integer; an [OverflowError] on an
    integer argument is reported as [struct.error].  A format string outside
    the fragment is not modelled. *)
Definition struct_pack (fmt : string) (value : pyval) : result (list byte) :=
  match parse_fmt fmt with
  | None => Raise NotModelled
  | Some c =>
      match code_kind c with
      | Floating =>
          match value with
          | PyNaN sign fraction => pack_nan c sign fraction
          | _ =>
              x <- as_double value ;;
              match pack_float c x, value with
              | Raise OverflowError, PyInt _ => Raise StructError
              | packed, _ => packed
              end
          end
      | _ =>
          match value with
          | PyInt z =>
              if in_range c z then Ok (be_bytes (code_size c) z)
              else Raise StructError
          | _ => Raise StructError
          end
      end
  end.

(** ** The source: [pack] and [encode] *)

(** [def pack(fmt, nodata, value)]: given fmt and nodata, encodes a value
    as bytes. *)
Definition pack (fmt : string) (nodata value : pyval) : result (list byte) :=
  let value := match value with PyNone => nodata | _ => value end in
  struct_pack fmt value.

(** [def encode(fmt, nodata, values)]: packs the given values together as
    bytes. *)
Definition encode (fmt : string) (nodata : pyval) (values : list pyval)
  : result (list byte) :=
  chunks <- traverse (pack fmt nodata) values ;;
  Ok (concat chunks).


(** ** The source: the fixtures of [test_arg_init] *)

(** Modelled from the spec: [gdaltest.NaN()], a helper of the test harness
    that is not part of this module; the specification calls the sentinel of
    the floating types "IEEE-754 NaN". *)
Definition gdaltest_NaN : float := nan.

(** One entry of [gdaltest.argTests]: the [(name, fmt, nodata)] triples of a
    family of data types and the cell values written for each of them. *)
Record arg_test : Set := {
  formats : list (string * string * pyval);
  data : list pyval
}.

(** None means "no data". *)
Definition argTests : list arg_test :=
  [ {| formats :=
         [ ("int8"%string, ">b"%string, PyInt (- Z.shiftl 1 7));
           ("int16"%string, ">h"%string, PyInt (- Z.shiftl 1 15));
           ("int32"%string, ">i"%string, PyInt (- Z.shiftl 1 31));
           ("int64"%string, ">q"%string, PyInt (- Z.shiftl 1 63)) ];
       data := [PyNone; PyInt 2; PyInt (-3); PyInt (-4)] |};
    {| formats :=
         [ ("uint8"%string, ">B"%string, PyInt (Z.shiftl 1 8 - 1));
           ("uint16"%string, ">H"%string, PyInt (Z.shiftl 1 16 - 1));
           ("uint32"%string, ">I"%string, PyInt (Z.shiftl 1 32 - 1));
           ("uint64"%string, ">Q"%string, PyInt (Z.shiftl 1 64 - 1)) ];
       data := [PyNone; PyInt 2; PyInt 3; PyInt 4] |};
    {| formats :=
         [ ("float32"%string, ">f"%string, PyFloat gdaltest_NaN);
           ("float64"%string, ">d"%string, PyFloat gdaltest_NaN) ];
       data := [PyNone; PyFloat 1.1; PyFloat (-20.02); PyFloat 300.003] |} ].

(** [gdaltest.argDefaults]: the geometry written to every JSON sidecar. *)
Record arg_defaults : Set := {
  d_xmin : float;
  d_ymin : float;
  d_xmax : float;
  d_ymax : float;
  d_width : float;
  d_height : float;
  d_rows : Z;
  d_cols : Z
}.

Definition argDefaults : arg_defaults :=
  {| d_xmin := 0.0; d_ymin := 0.0; d_xmax := 2.0; d_ymax := 2.0;
     d_width := 1.0; d_height := 1.0; d_rows := 2; d_cols := 2 |}.

(** The payload [test_arg_init] writes to [data/arg-<name>.arg], for every
    triple of every entry of [argTests], in the order of the loops. *)
Definition arg_files : list (string * result (list byte)) :=
  flat_map
    (fun d =>
       map (fun '(name, fmt, nodata) => (name, encode fmt nodata (data d)))
           (formats d))
    argTests.

(** The assertion of [test_arg_getgeotransform] on a geotransform [gt]. *)
Definition geotransform_expected (gt : float * float * float * float * float * float)
  : bool :=
  let '(gt0, gt1, gt2, gt3, gt4, gt5) := gt in
  (PrimFloat.eqb gt0 0 && PrimFloat.eqb gt1 1 && PrimFloat.eqb gt2 0
   && PrimFloat.eqb gt3 2 && PrimFloat.eqb gt4 0 && PrimFloat.eqb gt5 (-1))%bool.

(** The value [test_arg_nodata] expects of [GetNoDataValue()] on the int8
    file: 128, "as per the ARG spec". *)
Definition int8_nodata_expected : Z := 128.

(** ** The data types of the format *)

Inductive DataType : Set :=
| int8 | int16 | int32 | int64
| uint8 | uint16 | uint32 | uint64
| float32 | float64.

Definition all_types : list DataType :=
  [int8; int16; int32; int64; uint8; uint16; uint32; uint64; float32; float64].

(** The tag of a data type, as written to the ["datatype"] key. *)
Definition tag (t : DataType) : string :=
  match t with
  | int8 => "int8" | int16 => "int16" | int32 => "int32" | int64 => "int64"
  | uint8 => "uint8" | uint16 => "uint16" | uint32 => "uint32"
  | uint64 => "uint64"
  | float32 => "float32" | float64 => "float64"
  end.

(** The row of [argTests] for a data type: the [fmt] and [nodata] that
    [test_arg_init] hands to [encode] for it. *)
Definition all_formats : list (string * string * pyval) :=
  flat_map formats argTests.

Definition format_row (t : DataType) : string * pyval :=
  match find (fun '(name, _, _) => String.eqb name (tag t)) all_formats with
  | Some (_, fmt, nodata) => (fmt, nodata)
  | None => (EmptyString, PyNone)
  end.

Definition fmt_of (t : DataType) : string := fst (format_row t).
Definition nodata_of (t : DataType) : pyval := snd (format_row t).

(** [encode] as the tests call it for a data type. *)
Definition encode_type (t : DataType) (values : list pyval)
  : result (list byte) :=
  encode (fmt_of t) (nodata_of t) values.

(** Modelled from the spec: the attributes of a data type, which the driver
    and not this module assigns: signedness, byte width (1, 2, 4 or 8) and,
    for the floating types, the interchange format. *)
Definition type_kind (t : DataType) : kind :=
  match t with
  | int8 | int16 | int32 | int64 => Signed
  | uint8 | uint16 | uint32 | uint64 => Unsigned
  | float32 | float64 => Floating
  end.

Definition width (t : DataType) : nat :=
  match t with
  | int8 | uint8 => 1
  | int16 | uint16 => 2
  | int32 | uint32 | float32 => 4
  | int64 | uint64 | float64 => 8
  end.

Definition type_bits (t : DataType) : Z := 8 * Z.of_nat (width t).

Definition type_format (t : DataType) : IEEE.format :=
  match t with
  | float32 => IEEE.binary32
  | _ => IEEE.binary64
  end.

(** Modelled from the spec: the sentinel a data type has in the driver, in
    the words of the specification: the minimum of a signed type, the
    maximum of an unsigned type, NaN for the floating types. *)
Definition spec_nodata (t : DataType) : pyval :=
  match type_kind t with
  | Signed => PyInt (- 2 ^ (type_bits t - 1))
  | Unsigned => PyInt (2 ^ type_bits t - 1)
  | Floating => PyFloat nan
  end.

(** ** The reader *)

(** The is-NaN predicate on bit patterns of format [f]: the exponent field
    is all ones and the fraction is not zero. *)
Definition nan_pattern (f : IEEE.format) (b : Z) : bool :=
  (Z.shiftr b (IEEE.mw f) mod 2 ^ IEEE.ew f =? 2 ^ IEEE.ew f - 1)
  && negb (b mod 2 ^ IEEE.mw f =? 0).

(** The integer a [bits]-wide two's-complement pattern denotes. *)
Definition signed_of (bits : Z) (raw : Z) : Z :=
  if raw <? 2 ^ (bits - 1) then raw else raw - 2 ^ bits.

(** Modelled from the spec: the value of one cell of [decode], which is part
    of the driver and not of this module.  The cell is read big-endian; a
    value equal to the sentinel of the type is absent, and for the floating
    types every NaN is absent. *)
Definition decode_cell (t : DataType) (cell : list byte) : pyval :=
  let raw := be_int cell in
  match type_kind t with
  | Signed =>
      let z := signed_of (type_bits t) raw in
      if z =? - 2 ^ (type_bits t - 1) then PyNone else PyInt z
  | Unsigned =>
      if raw =? 2 ^ type_bits t - 1 then PyNone else PyInt raw
  | Floating =>
      let x := IEEE.SF_of_bits (type_format t) raw in
      if IEEE.is_nan x then PyNone
      else PyFloat (SF2Prim
                      match t with
                      | float32 => IEEE.convert IEEE.binary64 x
                      | _ => x
                      end)
  end.

(** A byte string read big-endian, in the words of the specification:
    the first byte is the most significant, so a byte counts for [256] to
    the number of bytes that follow it. *)
Fixpoint big_endian_value (bs : list byte) : Z :=
  match bs with
  | [] => 0
  | b :: bs' =>
      Z_of_byte b * 256 ^ Z.of_nat (length bs') + big_endian_value bs'
  end.

(** The first [n] cells of [w] bytes of a buffer. *)
Fixpoint cells (w n : nat) (buffer : list byte) : list (list byte) :=
  match n with
  | O => []
  | S n' => firstn w buffer :: cells w n' (skipn w buffer)
  end.

(** Modelled from the spec: [decode(dataType, buffer, cellCount)], which is
    part of the driver and not of this module.  It fails with
    [TruncatedDataError] unless the buffer holds exactly [cellCount] cells
    of the width of the type, and otherwise reads them in order. *)
Definition decode (t : DataType) (buffer : list byte) (cellCount : nat)
  : result (list pyval) :=
  if Nat.eqb (length buffer) (cellCount * width t)
  then Ok (map (decode_cell t) (cells (width t) cellCount buffer))
  else Raise TruncatedDataError.

(** Modelled from the spec: the answer of the driver, which is not part of
    this module, to a "what is nodata" query: the sentinel of the type,
    except that for int8 it is the unsigned reading 128 of the stored
    byte. *)
Definition reported_nodata (t : DataType) : pyval :=
  match t with
  | int8 => PyInt 128
  | _ => spec_nodata t
  end.

(** ** Grid metadata *)

(** Modelled from the spec: the metadata of a grid as the driver, which is
    not part of this module, reads it from the JSON sidecar. *)
Record GridMetadata : Set := {
  layerName : string;
  dataType : DataType;
  xmin : float;
  ymin : float;
  xmax : float;
  ymax : float;
  cellWidth : float;
  cellHeight : float;
  rows : Z;
  cols : Z
}.

(** The metadata [test_arg_init] writes to [data/arg-<name>.json]:
    [argDefaults] updated with the layer name and the data type. *)
Definition sidecar (t : DataType) : GridMetadata :=
  {| layerName := "arg-" ++ tag t;
     dataType := t;
     xmin := d_xmin argDefaults;
     ymin := d_ymin argDefaults;
     xmax := d_xmax argDefaults;
     ymax := d_ymax argDefaults;
     cellWidth := d_width argDefaults;
     cellHeight := d_height argDefaults;
     rows := d_rows argDefaults;
     cols := d_cols argDefaults |}.

(** Modelled from the spec: the geotransform the driver, which is not part
    of this module, derives from the metadata: origin [(xmin, ymax)], pixel
    width [cellWidth], pixel height [-cellHeight], no rotation. *)
Definition geotransform (m : GridMetadata)
  : float * float * float * float * float * float :=
  (xmin m, cellWidth m, 0%float, ymax m, 0%float, (- cellHeight m)%float).

(** ** Values of a data type *)

(** The format character of a data type. *)
Definition type_code (t : DataType) : code :=
  match t with
  | int8 => code_b | int16 => code_h | int32 => code_i | int64 => code_q
  | uint8 => code_B | uint16 => code_H | uint32 => code_I | uint64 => code_Q
  | float32 => code_f | float64 => code_d
  end.

(** The range of an integer type of [type_bits t] bits. *)
Definition type_min (t : DataType) : Z :=
  match type_kind t with
  | Signed => - 2 ^ (type_bits t - 1)
  | _ => 0
  end.

Definition type_max (t : DataType) : Z :=
  match type_kind t with
  | Signed => 2 ^ (type_bits t - 1) - 1
  | _ => 2 ^ type_bits t - 1
  end.






(** The values that are floats. *)
Definition is_float (v : pyval) : bool :=
  match v with
  | PyFloat _ | PyNaN _ _ => true
  | _ => false
  end.

(** ** What [pack] hands to [struct.pack] *)

(** The first two lines of [pack]: a missing value is replaced by the
    sentinel, a present value is kept. *)
Definition fill (nodata value : pyval) : pyval :=
  match value with
  | PyNone => nodata
  | _ => value
  end.

(** The byte that extends a two's-complement integer to a wider cell. *)
Definition sign_byte (z : Z) : byte := if z <? 0 then xff else x00.

(** ** Dictionaries *)

(** The values of the dictionaries of [test_arg_init]: strings, integers
    and floats. *)
Inductive mval : Set :=
| MStr (s : string)
| MInt (z : Z)
| MFloat (x : float).

(** A [dict]: its items in insertion order, no key twice. *)
Definition dict : Set := list (string * mval).

(** [d.get(key)]. *)
Fixpoint dict_get (d : dict) (key : string) : option mval :=
  match d with
  | [] => None
  | (k, v) :: d' => if String.eqb k key then Some v else dict_get d' key
  end.

(** [d[key] = value]: the value of a key that is there is replaced where it
    stands, a new key is added at the end. *)
Fixpoint dict_set (d : dict) (key : string) (value : mval) : dict :=
  match d with
  | [] => [(key, value)]
  | (k, v) :: d' =>
      if String.eqb k key then (k, value) :: d'
      else (k, v) :: dict_set d' key value
  end.

(** [d.update(key=value, ...)], the keywords taken in order. *)
Definition dict_update (d : dict) (kwargs : list (string * mval)) : dict :=
  fold_left (fun acc kv => dict_set acc (fst kv) (snd kv)) kwargs d.

(** [copy(d)]: a new dictionary with the items of [d].  Updates return the
    updated dictionary here, so the copy is the list of items itself and
    updating it leaves the original as it was. *)
Definition copy (d : dict) : dict := d.

(** ** Python's [%] on a string and a mapping *)

(** What formatting raises. *)
Inductive format_exn : Set :=
| KeyError (key : string)
| TypeError
| ValueError
| FloatOverflow.

(** The outcome of formatting; [Unmodelled] marks what lies outside the
    fragment of [%] that is modelled, of which nothing is said. *)
Inductive formatted : Set :=
| Text (s : string)
| Failed (e : format_exn)
| Unmodelled.

(** [str] of an integer: its decimal numeral. *)
Definition str_of_Z (z : Z) : string := NilZero.string_of_int (Z.to_int z).

(** The six digits of [n], for [0 <= n < 10 ^ 6]. *)
Definition six_digits (n : Z) : string :=
  match str_of_Z (1000000 + n) with
  | String _ digits => digits
  | EmptyString => EmptyString
  end.

Definition sign_text (s : bool) : string := if s then "-" else "".

(** [m * 10 ^ 6 * 2 ^ e] rounded to the nearest integer, ties to even. *)
Definition scaled_round (m : positive) (e : Z) : Z :=
  if 0 <=? e then Z.pos m * 10 ^ 6 * 2 ^ e
  else
    let d := 2 ^ (- e) in
    let q := (Z.pos m * 10 ^ 6) / d in
    let r := (Z.pos m * 10 ^ 6) mod d in
    match 2 * r ?= d with
    | Lt => q
    | Gt => q + 1
    | Eq => if Z.even q then q else q + 1
    end.

(** [%f] on a float: fixed notation with six digits after the point,
    correctly rounded; [inf] and [nan] for the non-finite floats. *)
Definition fixed6 (x : spec_float) : string :=
  match x with
  | S754_nan => "nan"
  | S754_infinity s => sign_text s ++ "inf"
  | S754_zero s => sign_text s ++ "0.000000"
  | S754_finite s m e =>
      let n := scaled_round m e in
      sign_text s ++ str_of_Z (n / 10 ^ 6) ++ "." ++ six_digits (n mod 10 ^ 6)
  end.

(** [int(x)] for a float: truncation towards zero. *)
Definition trunc_float (x : spec_float) : option Z :=
  match x with
  | S754_zero _ => Some 0
  | S754_finite s m e =>
      Some (cond_Zopp s (if 0 <=? e then Z.pos m * 2 ^ e
                         else Z.pos m / 2 ^ (- e)))
  | _ => None
  end.

(** One conversion, [%s], [%d] or [%f], of a value. *)
Definition convert_value (conv : ascii) (v : mval) : formatted :=
  match conv, v with
  | "s"%char, MStr s => Text s
  | "s"%char, MInt z => Text (str_of_Z z)
  | "s"%char, MFloat _ => Unmodelled
  | "d"%char, MInt z => Text (str_of_Z z)
  | "d"%char, MFloat x =>
      match Prim2SF x with
      | S754_nan => Failed ValueError
      | S754_infinity _ => Failed FloatOverflow
      | y => match trunc_float y with
             | Some z => Text (str_of_Z z)
             | None => Unmodelled
             end
      end
  | "d"%char, MStr _ => Failed TypeError
  | "f"%char, MFloat x => Text (fixed6 (Prim2SF x))
  | "f"%char, MInt z =>
      let x := binary_normalize prec emax z 0 false in
      if IEEE.is_infinite x then Failed FloatOverflow else Text (fixed6 x)
  | "f"%char, MStr _ => Failed TypeError
  | _, _ => Unmodelled
  end.

(** A template is literal text and conversions [%(key)c]. *)
Inductive piece : Set :=
| Lit (c : ascii)
| Conv (key : string) (conv : ascii).

Inductive scan : Set :=
| InText
| AfterPercent
| InKey (key : string)
| AfterKey (key : string).

(** The pieces of a template made of text, [%%] and [%(key)s], [%(key)d],
    [%(key)f]; [None] for any other template. *)
Fixpoint parse_template (st : scan) (tpl : string) : option (list piece) :=
  match tpl with
  | EmptyString =>
      match st with
      | InText => Some []
      | _ => None
      end
  | String c rest =>
      match st with
      | InText =>
          if Ascii.eqb c "%" then parse_template AfterPercent rest
          else option_map (cons (Lit c)) (parse_template InText rest)
      | AfterPercent =>
          if Ascii.eqb c "%"
          then option_map (cons (Lit c)) (parse_template InText rest)
          else if Ascii.eqb c "(" then parse_template (InKey "") rest
          else None
      | InKey key =>
          if Ascii.eqb c ")" then parse_template (AfterKey key) rest
          else if Ascii.eqb c "(" then None
          else parse_template (InKey (key ++ String c "")) rest
      | AfterKey key =>
          if Ascii.eqb c "s" || Ascii.eqb c "d" || Ascii.eqb c "f"
          then option_map (cons (Conv key c)) (parse_template InText rest)
          else None
      end
  end.

(** The pieces are formatted from left to right; a key that is missing
    raises [KeyError], and the first failure ends the formatting. *)
Fixpoint render (ps : list piece) (m : dict) : formatted :=
  match ps with
  | [] => Text ""
  | p :: ps' =>
      let head :=
        match p with
        | Lit c => Text (String c "")
        | Conv key conv =>
            match dict_get m key with
            | None => Failed (KeyError key)
            | Some v => convert_value conv v
            end
        end in
      match head with
      | Text s =>
          match render ps' m with
          | Text s' => Text (s ++ s')
          | other => other
          end
      | other => other
      end
  end.

(** [tpl % m] for a mapping [m]. *)
Definition format_mapping (tpl : string) (m : dict) : formatted :=
  match parse_template InText tpl with
  | Some ps => render ps m
  | None => Unmodelled
  end.

(** ** The source: the sidecar written by [test_arg_init] *)

Definition quote : string := String "034" "".
Definition newline : string := String "010" "".

Definition quoted (s : string) : string := quote ++ s ++ quote.

(** [gdaltest.argJsontpl], line by line. *)
Definition argJsontpl : string :=
  String.concat newline
    [ "{";
      "    " ++ quoted "layer" ++ ": " ++ quoted "%(fmt)s" ++ ",";
      "    " ++ quoted "type" ++ ": " ++ quoted "arg" ++ ",";
      "    " ++ quoted "datatype" ++ ": " ++ quoted "%(dt)s" ++ ",";
      "    " ++ quoted "xmin" ++ ": %(xmin)f,";
      "    " ++ quoted "ymin" ++ ": %(ymin)f,";
      "    " ++ quoted "xmax" ++ ": %(xmax)f,";
      "    " ++ quoted "ymax" ++ ": %(ymax)f,";
      "    " ++ quoted "cellwidth" ++ ": %(width)f,";
      "    " ++ quoted "cellheight" ++ ": %(height)f,";
      "    " ++ quoted "rows" ++ ": %(rows)d,";
      "    " ++ quoted "cols" ++ ": %(cols)d";
      "}" ]%string.

(** [gdaltest.argDefaults] as the dictionary it is. *)
Definition argDefaults_dict : dict :=
  [ ("xmin", MFloat (d_xmin argDefaults));
    ("ymin", MFloat (d_ymin argDefaults));
    ("xmax", MFloat (d_xmax argDefaults));
    ("ymax", MFloat (d_ymax argDefaults));
    ("width", MFloat (d_width argDefaults));
    ("height", MFloat (d_height argDefaults));
    ("rows", MInt (d_rows argDefaults));
    ("cols", MInt (d_cols argDefaults)) ]%string.

(** [meta = copy(gdaltest.argDefaults); meta.update(fmt="arg-" + name,
    dt=name)]. *)
Definition meta_of (name : string) : dict :=
  dict_update (copy argDefaults_dict)
    [ ("fmt", MStr ("arg-" ++ name)); ("dt", MStr name) ]%string.

(** [gdaltest.argJsontpl % meta], the text of [data/arg-<name>.json]. *)
Definition sidecar_text (name : string) : formatted :=
  format_mapping argJsontpl (meta_of name).

(** ** The source: the files of the fixtures *)

(** What a file holds: bytes (mode ["wb"]) or text (mode ["w"]). *)
Inductive content : Set :=
| Bytes (b : list byte)
| Chars (s : string).

(** The files under the working directory, by path; the directory [data]
    is taken to exist. *)
Definition files : Type := string -> option content.

(** [open(path, mode)] on a mode that truncates, followed by the writing
    of [c]: the file is there and holds [c], whatever it held. *)
Definition write_file (fs : files) (path : string) (c : content) : files :=
  fun p => if String.eqb p path then Some c else fs p.

(** [os.remove(path)]: [None] stands for [FileNotFoundError]. *)
Definition remove_file (fs : files) (path : string) : option files :=
  match fs path with
  | Some _ => Some (fun p => if String.eqb p path then None else fs p)
  | None => None
  end.

(** What a test function can raise. *)
Inductive raised : Set :=
| EncodeRaised (e : exn)
| FormatRaised (e : format_exn)
| FormatUnmodelled
| FileNotFoundError (path : string).

(** How a test function ends: it returns, it calls [pytest.skip()], or an
    exception leaves it. *)
Inductive verdict : Set :=
| Passed
| Skipped
| Errored (e : raised).

(** The state the tests share: whether [gdaltest.argDriver] is set (is not
    [None]) and the files. *)
Record harness : Type := {
  argDriver : bool;
  disk : files
}.

Definition arg_path (name : string) : string := "data/arg-" ++ name ++ ".arg".
Definition json_path (name : string) : string := "data/arg-" ++ name ++ ".json".

(** The rows of the two nested loops over [gdaltest.argTests], each with
    the [data] of its entry. *)
Definition fixture_rows : list (list pyval * (string * string * pyval)) :=
  flat_map (fun d => map (fun row => (data d, row)) (formats d)) argTests.

Definition fixture_names : list string :=
  map (fun r => fst (fst (snd r))) fixture_rows.

Definition fixture_paths : list string :=
  flat_map (fun name => [arg_path name; json_path name]) fixture_names.

(** The body of the loops of [test_arg_init] for one row: the payload is
    written to the [.arg] file and the formatted template to the [.json]
    file.  A file is created when it is opened, before what is written to
    it is computed. *)
Definition write_fixture (fs : files)
           (r : list pyval * (string * string * pyval))
  : files * option raised :=
  let '(values, (name, fmt, nodata)) := r in
  let fs := write_file fs (arg_path name) (Bytes []) in
  match encode fmt nodata values with
  | Raise e => (fs, Some (EncodeRaised e))
  | Ok b =>
      let fs := write_file fs (arg_path name) (Bytes b) in
      let meta := dict_update (copy argDefaults_dict)
                    [ ("fmt"%string, MStr ("arg-" ++ name));
                      ("dt"%string, MStr name) ] in
      let fs := write_file fs (json_path name) (Chars "") in
      match format_mapping argJsontpl meta with
      | Text s => (write_file fs (json_path name) (Chars s), None)
      | Failed e => (fs, Some (FormatRaised e))
      | Unmodelled => (fs, Some FormatUnmodelled)
      end
  end.

Fixpoint write_fixtures (fs : files)
         (rs : list (list pyval * (string * string * pyval)))
  : files * option raised :=
  match rs with
  | [] => (fs, None)
  | r :: rs' =>
      match write_fixture fs r with
      | (fs', None) => write_fixtures fs' rs'
      | failed => failed
      end
  end.

(** The loops of [test_arg_destroy]: both files of every row are removed,
    and the first that is not there raises. *)
Fixpoint remove_fixtures (fs : files) (names : list string)
  : files * option raised :=
  match names with
  | [] => (fs, None)
  | name :: names' =>
      match remove_file fs (arg_path name) with
      | None => (fs, Some (FileNotFoundError (arg_path name)))
      | Some fs1 =>
          match remove_file fs1 (json_path name) with
          | None => (fs1, Some (FileNotFoundError (json_path name)))
          | Some fs2 => remove_fixtures fs2 names'
          end
      end
  end.

(** [gdaltest.argTests[0]["formats"][1][0]], the name of the file that
    [test_arg_init] opens to probe the driver. *)
Definition probe_name : string :=
  match argTests with
  | d :: _ =>
      match formats d with
      | _ :: (name, _, _) :: _ => name
      | _ => ""
      end
  | [] => ""
  end.

Section Tests.

(** The driver library is not part of this module: whether
    [gdal.GetDriverByName("ARG")] finds the driver, and whether [gdal.Open]
    returns a dataset for a path, given the files. *)
Variable driver_found : bool.
Variable gdal_open : files -> string -> bool.

(** [test_arg_init]. *)
Definition test_arg_init (st : harness) : verdict * harness :=
  if negb driver_found
  then (Skipped, {| argDriver := false; disk := disk st |})
  else
    match write_fixtures (disk st) fixture_rows with
    | (fs, Some e) => (Errored e, {| argDriver := true; disk := fs |})
    | (fs, None) =>
        if gdal_open fs (arg_path probe_name)
        then (Passed, {| argDriver := true; disk := fs |})
        else (Skipped, {| argDriver := false; disk := fs |})
    end.

(** [test_arg_destroy]. *)
Definition test_arg_destroy (st : harness) : verdict * harness :=
  if negb (argDriver st) then (Skipped, st)
  else
    match remove_fixtures (disk st) fixture_names with
    | (fs, None) => (Passed, {| argDriver := argDriver st; disk := fs |})
    | (fs, Some e) => (Errored e, {| argDriver := argDriver st; disk := fs |})
    end.

End Tests.

(** ** What the tests leave on disk *)

(** The two files of every name. *)
Definition paths_of (names : list string) : list string :=
  flat_map (fun name => [arg_path name; json_path name]) names.

(** The names of a list of rows. *)
Definition names_of (rs : list (list pyval * (string * string * pyval)))
  : list string :=
  map (fun r => fst (fst (snd r))) rs.

(** A row whose payload is encoded and whose sidecar is formatted. *)
Definition row_written (fs : files)
           (r : list pyval * (string * string * pyval)) : Prop :=
  exists b s,
    encode (snd (fst (snd r))) (snd (snd r)) (fst r) = Ok b
    /\ sidecar_text (fst (fst (snd r))) = Text s
    /\ fs (arg_path (fst (fst (snd r)))) = Some (Bytes b)
    /\ fs (json_path (fst (fst (snd r)))) = Some (Chars s).

(** * Properties *)

(** ** Results *)

Lemma Ok_inj {A : Type} (a b : A) : Ok a = Ok b -> a = b.
Proof. intros H. now injection H. Qed.

(** ** Bytes and big-endian integers *)

Lemma Z_of_byte_range (b : byte) : 0 <= Z_of_byte b < 256.
Proof.
  unfold Z_of_byte. pose proof (Byte.to_N_bounded b). lia.
Qed.

Lemma Z_of_byte_of_Z (z : Z) : Z_of_byte (byte_of_Z z) = z mod 256.
Proof.
  unfold Z_of_byte, byte_of_Z.
  assert (Hr : 0 <= z mod 256 < 256) by (apply Z.mod_pos_bound; lia).
  destruct (Byte.of_N (Z.to_N (z mod 256))) as [b|] eqn:E.
  - apply Byte.to_of_N in E. rewrite E. lia.
  - apply Byte.of_N_None_iff in E. lia.
Qed.

Lemma byte_of_Z_of_byte (b : byte) : byte_of_Z (Z_of_byte b) = b.
Proof.
  unfold byte_of_Z. pose proof (Z_of_byte_range b) as Hr.
  rewrite Z.mod_small by exact Hr.
  unfold Z_of_byte. rewrite N2Z.id, Byte.of_to_N. reflexivity.
Qed.

Lemma length_be_bytes (w : nat) (n : Z) : length (be_bytes w n) = w.
Proof.
  induction w as [|w IH]; simpl; [reflexivity | now rewrite IH].
Qed.

Lemma be_int_acc (bs : list byte) (acc : Z) :
  fold_left (fun a b => a * 256 + Z_of_byte b) bs acc
  = acc * 256 ^ Z.of_nat (length bs) + be_int bs.
Proof.
  unfold be_int. revert acc.
  induction bs as [|b bs IH]; intros acc.
  - simpl. lia.
  - cbn [fold_left length]. rewrite IH, (IH (0 * 256 + Z_of_byte b)).
    rewrite Nat2Z.inj_succ, Z.pow_succ_r by lia. lia.
Qed.

Lemma be_int_cons (b : byte) (bs : list byte) :
  be_int (b :: bs) = Z_of_byte b * 256 ^ Z.of_nat (length bs) + be_int bs.
Proof.
  unfold be_int at 1. cbn [fold_left]. rewrite be_int_acc. lia.
Qed.

Lemma be_int_range (bs : list byte) :
  0 <= be_int bs < 256 ^ Z.of_nat (length bs).
Proof.
  induction bs as [|b bs IH].
  - cbn. lia.
  - rewrite be_int_cons. cbn [length].
    rewrite Nat2Z.inj_succ, Z.pow_succ_r by lia.
    pose proof (Z_of_byte_range b). nia.
Qed.

Lemma pow256 (w : nat) : 256 ^ Z.of_nat w = 2 ^ (8 * Z.of_nat w).
Proof.
  rewrite Z.pow_mul_r by lia. reflexivity.
Qed.

(** Reading back [w] packed bytes gives the value modulo [2 ^ (8 * w)]. *)
Lemma be_int_be_bytes (w : nat) (n : Z) :
  be_int (be_bytes w n) = n mod 2 ^ (8 * Z.of_nat w).
Proof.
  induction w as [|w IH].
  - cbn. now rewrite Z.mod_1_r.
  - cbn [be_bytes]. rewrite be_int_cons, IH, length_be_bytes, Z_of_byte_of_Z.
    rewrite Z.shiftr_div_pow2 by lia.
    rewrite Nat2Z.inj_succ.
    replace (8 * Z.succ (Z.of_nat w)) with (8 * Z.of_nat w + 8) by lia.
    rewrite Z.pow_add_r by lia. rewrite pow256.
    change (2 ^ 8) with 256.
    rewrite (Z.rem_mul_r n (2 ^ (8 * Z.of_nat w)) 256) by lia.
    lia.
Qed.

Lemma be_bytes_be_int (bs : list byte) :
  be_bytes (length bs) (be_int bs) = bs.
Proof.
  assert (G : forall (w : nat) (hi : Z) bs0,
             length bs0 = w ->
             be_bytes w (hi * 256 ^ Z.of_nat w + be_int bs0) = bs0).
  { induction w as [|w IH]; intros hi bs0 Hl.
    - destruct bs0; [reflexivity | discriminate].
    - destruct bs0 as [|b bs0]; [discriminate|].
      injection Hl as Hl. cbn [be_bytes]. rewrite be_int_cons, Hl.
      pose proof (be_int_range bs0) as Hr. rewrite Hl in Hr.
      pose proof (Z_of_byte_range b) as Hb.
      assert (Hp : 0 < 256 ^ Z.of_nat w) by (apply Z.pow_pos_nonneg; lia).
      rewrite Nat2Z.inj_succ, Z.pow_succ_r by lia.
      f_equal.
      + rewrite Z.shiftr_div_pow2, <- pow256 by lia.
        replace (hi * (256 * 256 ^ Z.of_nat w)
                 + (Z_of_byte b * 256 ^ Z.of_nat w + be_int bs0))
          with (be_int bs0 + (hi * 256 + Z_of_byte b) * 256 ^ Z.of_nat w)
          by lia.
        rewrite Z.div_add, Z.div_small by lia.
        rewrite <- (byte_of_Z_of_byte b) at 2. unfold byte_of_Z.
        replace (0 + (hi * 256 + Z_of_byte b)) with (Z_of_byte b + hi * 256)
          by lia.
        now rewrite Z.mod_add by lia.
      + replace (hi * (256 * 256 ^ Z.of_nat w)
                 + (Z_of_byte b * 256 ^ Z.of_nat w + be_int bs0))
          with ((hi * 256 + Z_of_byte b) * 256 ^ Z.of_nat w + be_int bs0)
          by lia.
        now apply IH. }
  specialize (G (length bs) 0 bs eq_refl). now rewrite Z.mul_0_l in G.
Qed.

(** The bytes only depend on the value modulo [2 ^ (8 * w)]. *)
Lemma be_bytes_mod (w : nat) (n : Z) :
  be_bytes w (n mod 2 ^ (8 * Z.of_nat w)) = be_bytes w n.
Proof.
  rewrite <- be_int_be_bytes.
  rewrite <- (length_be_bytes w n) at 1.
  apply be_bytes_be_int.
Qed.

(** ** Comprehensions that may raise *)

Section Traverse.

Context {A B : Type}.
Variable f : A -> result B.

Lemma traverse_app (xs ys : list A) :
  traverse f (xs ++ ys)
  = (us <- traverse f xs ;; vs <- traverse f ys ;; Ok (us ++ vs)).
Proof.
  induction xs as [|x xs IH]; cbn [traverse app bind].
  - destruct (traverse f ys); reflexivity.
  - destruct (f x) as [y|e]; cbn [bind]; [|reflexivity].
    rewrite IH. destruct (traverse f xs) as [us|e]; cbn [bind]; [|reflexivity].
    destruct (traverse f ys); reflexivity.
Qed.

(** A comprehension that succeeds is an element-wise image. *)
Lemma traverse_Ok (xs : list A) (ys : list B) :
  traverse f xs = Ok ys <-> Forall2 (fun x y => f x = Ok y) xs ys.
Proof.
  revert ys. induction xs as [|x xs IH]; intros ys; cbn [traverse].
  - split; intros H.
    + injection H as <-. constructor.
    + inversion H. reflexivity.
  - destruct (f x) as [y|e] eqn:Ex; cbn [bind].
    + destruct (traverse f xs) as [zs|e] eqn:Et; cbn [bind].
      * split; intros H.
        -- injection H as <-. constructor; [exact Ex | now apply IH].
        -- inversion H as [|? y' ? zs' H1 H2]; subst.
           rewrite Ex in H1. injection H1 as <-.
           apply IH in H2. injection H2 as <-. reflexivity.
      * split; intros H; [discriminate|].
        inversion H as [|? y' ? zs' H1 H2]; subst.
        apply IH in H2. discriminate.
    + split; intros H; [discriminate|].
      inversion H as [|? y' ? zs' H1 H2]; subst.
      rewrite Ex in H1. discriminate.
Qed.

(** When some element raises, so does the comprehension. *)
Lemma traverse_raises (xs : list A) (x : A) (e : exn) :
  In x xs -> f x = Raise e -> exists e', traverse f xs = Raise e'.
Proof.
  induction xs as [|x0 xs IH]; intros Hin Hx; [destruct Hin|].
  cbn [traverse]. destruct (f x0) as [y|e0] eqn:E0; cbn [bind].
  - destruct Hin as [->|Hin]; [congruence|].
    destruct (IH Hin Hx) as [e' ->]. now exists e'.
  - now exists e0.
Qed.

(** The exception of a comprehension is the exception of an element. *)
Lemma traverse_Raise (xs : list A) (e : exn) :
  traverse f xs = Raise e -> exists x, In x xs /\ f x = Raise e.
Proof.
  induction xs as [|x0 xs IH]; cbn [traverse]; [discriminate|].
  destruct (f x0) as [y|e0] eqn:E0; cbn [bind].
  - destruct (traverse f xs) as [ys|e1]; cbn [bind]; [discriminate|].
    intros H. injection H as ->.
    destruct (IH eq_refl) as (x & Hin & Hx). exists x. split; [now right | exact Hx].
  - intros H. injection H as ->. exists x0. split; [now left | exact E0].
Qed.

End Traverse.

(** ** Cells of a buffer *)



Lemma length_cells (w n : nat) (buffer : list byte) :
  length (cells w n buffer) = n.
Proof.
  revert buffer. induction n as [|n IH]; intros buffer; cbn [cells length];
    [reflexivity | now rewrite IH].
Qed.

(** The [i]-th cell is the slice of [w] bytes at offset [i * w]. *)
Lemma nth_error_cells (w n i : nat) (buffer : list byte) :
  (i < n)%nat ->
  nth_error (cells w n buffer) i = Some (firstn w (skipn (i * w) buffer)).
Proof.
  revert i buffer. induction n as [|n IH]; intros i buffer Hi; [lia|].
  destruct i as [|i]; cbn [cells nth_error].
  - reflexivity.
  - rewrite IH by lia. cbn [Nat.mul]. rewrite Nat.add_comm, <- skipn_skipn.
    reflexivity.
Qed.

Lemma concat_cells (w n : nat) (buffer : list byte) :
  length buffer = (n * w)%nat -> concat (cells w n buffer) = buffer.
Proof.
  revert buffer. induction n as [|n IH]; intros buffer Hl; cbn [cells concat].
  - destruct buffer; [reflexivity | discriminate].
  - rewrite IH.
    + apply firstn_skipn.
    + rewrite length_skipn, Hl. cbn [Nat.mul]. lia.
Qed.

(** ** The table of formats *)

Lemma all_formats_types :
  all_formats = map (fun t => (tag t, fmt_of t, nodata_of t)) all_types.
Proof. reflexivity. Qed.

Lemma parse_fmt_of (t : DataType) : parse_fmt (fmt_of t) = Some (type_code t).
Proof. destruct t; reflexivity. Qed.

Lemma code_kind_type (t : DataType) : code_kind (type_code t) = type_kind t.
Proof. destruct t; reflexivity. Qed.

Lemma code_size_type (t : DataType) : code_size (type_code t) = width t.
Proof. destruct t; reflexivity. Qed.

Lemma code_bits_type (t : DataType) : code_bits (type_code t) = type_bits t.
Proof. unfold code_bits, type_bits. now rewrite code_size_type. Qed.

Lemma calcsize_fmt_of (t : DataType) : calcsize (fmt_of t) = width t.
Proof. destruct t; reflexivity. Qed.


Lemma in_range_type (t : DataType) (z : Z) :
  in_range (type_code t) z = true <-> type_min t <= z <= type_max t.
Proof.
  unfold in_range, code_min, code_max, type_min, type_max.
  rewrite code_kind_type, code_bits_type, andb_true_iff, !Z.leb_le.
  reflexivity.
Qed.

(** ** [struct.pack], [pack] and [encode] *)

Lemma pack_float_length (c : code) (x : spec_float) (bs : list byte) :
  pack_float c x = Ok bs -> length bs = code_size c.
Proof.
  unfold pack_float.
  destruct (_ && _); [discriminate|].
  intros H. injection H as <-. apply length_be_bytes.
Qed.

Lemma struct_pack_length (fmt : string) (value : pyval) (bs : list byte) :
  struct_pack fmt value = Ok bs -> length bs = calcsize fmt.
Proof.
  unfold struct_pack, calcsize.
  destruct (parse_fmt fmt) as [c|]; [|discriminate].
  destruct (code_kind c).
  1,2: destruct value as [|z|x|sg fr]; try discriminate;
       destruct (in_range c z); try discriminate;
       intros H; injection H as <-; apply length_be_bytes.
  destruct value as [|z|x|sg fr].
  4: { unfold pack_nan. destruct c; try discriminate.
       destruct (nan_fraction sg fr); [|discriminate].
       intros H. apply Ok_inj in H. subst bs. apply length_be_bytes. }
  all: destruct (as_double _) as [y|e]; cbn [bind]; [|discriminate];
    destruct (pack_float c y) as [bs'|[]] eqn:Ep; try discriminate;
    intros H; injection H as <-; now apply (pack_float_length c y).
Qed.

Lemma pack_length (fmt : string) (nodata value : pyval) (bs : list byte) :
  pack fmt nodata value = Ok bs -> length bs = calcsize fmt.
Proof. apply struct_pack_length. Qed.

(** An integer format raises nothing but [struct.error]. *)
Lemma struct_pack_integer_Raise (fmt : string) (c : code) (value : pyval) (e : exn) :
  parse_fmt fmt = Some c -> code_kind c <> Floating ->
  struct_pack fmt value = Raise e -> e = StructError.
Proof.
  unfold struct_pack. intros -> Hk.
  destruct (code_kind c); [| |contradiction].
  all: destruct value as [|z|x|sg fr]; try congruence;
       destruct (in_range c z); congruence.
Qed.

(** An integer format packs exactly the integers of its range. *)
Lemma struct_pack_integer (fmt : string) (c : code) (z : Z) :
  parse_fmt fmt = Some c -> code_kind c <> Floating ->
  struct_pack fmt (PyInt z)
  = if in_range c z then Ok (be_bytes (code_size c) z) else Raise StructError.
Proof.
  unfold struct_pack. intros -> Hk.
  destruct (code_kind c); [reflexivity|reflexivity|contradiction].
Qed.

(** The shape of an encoding: the concatenation of the packed cells. *)
Lemma encode_Ok (fmt : string) (nodata : pyval) (values : list pyval) (b : list byte) :
  encode fmt nodata values = Ok b <->
  exists chunks,
    Forall2 (fun v c => pack fmt nodata v = Ok c) values chunks
    /\ b = concat chunks.
Proof.
  unfold encode. split.
  - destruct (traverse (pack fmt nodata) values) as [chunks|e] eqn:E;
      cbn [bind]; [|discriminate].
    intros H. injection H as <-. exists chunks. split; [|reflexivity].
    now apply traverse_Ok.
  - intros (chunks & HF & ->). apply traverse_Ok in HF. now rewrite HF.
Qed.

Lemma Forall2_pack_length (fmt : string) (nodata : pyval) (values : list pyval)
      (chunks : list (list byte)) :
  Forall2 (fun v c => pack fmt nodata v = Ok c) values chunks ->
  length chunks = length values
  /\ Forall (fun c => length c = calcsize fmt) chunks.
Proof.
  induction 1 as [|v c values chunks Hp _ [IHl IHf]]; cbn [length].
  - split; [reflexivity | constructor].
  - split; [now rewrite IHl|]. constructor; [|exact IHf].
    now apply pack_length in Hp.
Qed.


(** ** Integer cells *)

Lemma type_bits_pos (t : DataType) : 8 <= type_bits t.
Proof. destruct t; cbv; discriminate. Qed.

Lemma pow2_split (n : Z) : 1 <= n -> 2 ^ n = 2 * 2 ^ (n - 1).
Proof.
  intros Hn. rewrite <- Z.pow_succ_r by lia. f_equal. lia.
Qed.



(** ** Bit patterns of floats *)

Lemma digits2_pos_bounds (m : positive) :
  2 ^ (Z.pos (digits2_pos m) - 1) <= Z.pos m < 2 ^ Z.pos (digits2_pos m).
Proof.
  induction m as [m IH|m IH|]; cbn [digits2_pos].
  1,2: rewrite Pos2Z.inj_succ;
       replace (Z.succ (Z.pos (digits2_pos m)) - 1)
         with (Z.pos (digits2_pos m)) by lia;
       rewrite Z.pow_succ_r by lia;
       rewrite (pow2_split (Z.pos (digits2_pos m))) in * by lia; lia.
  cbn. lia.
Qed.

Lemma digits2_pos_le (m : positive) (n : Z) :
  0 <= n -> Z.pos m < 2 ^ n -> Z.pos (digits2_pos m) <= n.
Proof.
  intros Hn Hm. pose proof (digits2_pos_bounds m) as [Hlo _].
  apply Z.nlt_ge. intros Hlt.
  assert (2 ^ n <= 2 ^ (Z.pos (digits2_pos m) - 1))
    by (apply Z.pow_le_mono_r; lia).
  lia.
Qed.

Lemma digits2_pos_gt (m : positive) (n : Z) :
  0 <= n -> 2 ^ n <= Z.pos m -> n < Z.pos (digits2_pos m).
Proof.
  intros Hn Hm. pose proof (digits2_pos_bounds m) as [_ Hhi].
  apply Z.nle_gt. intros Hle.
  assert (2 ^ Z.pos (digits2_pos m) <= 2 ^ n)
    by (apply Z.pow_le_mono_r; lia).
  lia.
Qed.

Section Bits.

Variable f : IEEE.format.
Hypothesis mw_pos : 1 <= IEEE.mw f.
Hypothesis ew_pos : 2 <= IEEE.ew f.

Let P := 2 ^ IEEE.mw f.
Let Q := 2 ^ IEEE.ew f.

Lemma P_pos : 0 < P.
Proof. apply Z.pow_pos_nonneg; lia. Qed.

Lemma Q_pos : 4 <= Q.
Proof.
  unfold Q. change 4 with (2 ^ 2). apply Z.pow_le_mono_r; lia.
Qed.

Lemma sign_bit_eq (s : bool) :
  IEEE.sign_bit f s = (if s then 1 else 0) * (P * Q).
Proof.
  unfold IEEE.sign_bit, P, Q. rewrite <- Z.pow_add_r by lia.
  destruct s; lia.
Qed.

(** The three fields of a bit pattern. *)
Lemma fields (s : bool) (E M : Z) :
  0 <= E < Q -> 0 <= M < P ->
  let b := IEEE.sign_bit f s + E * P + M in
  Z.testbit b (IEEE.mw f + IEEE.ew f) = s
  /\ Z.shiftr b (IEEE.mw f) mod Q = E
  /\ b mod P = M
  /\ 0 <= b < 2 * (P * Q).
Proof.
  intros HE HM b. subst b. rewrite sign_bit_eq.
  pose proof P_pos as HP. pose proof Q_pos as HQ.
  set (S := if s then 1 else 0).
  assert (HS : 0 <= S <= 1) by (subst S; destruct s; lia).
  assert (Hlow : 0 <= E * P + M < P * Q) by nia.
  repeat split.
  - assert (Hd : (S * (P * Q) + E * P + M) / 2 ^ (IEEE.mw f + IEEE.ew f) = S).
    { rewrite Z.pow_add_r by lia. fold P Q.
      symmetry. apply (Z.div_unique _ _ _ (E * P + M)); lia. }
    destruct s; subst S.
    + apply Z.testbit_true; [lia|]. rewrite Hd. reflexivity.
    + apply Z.testbit_false; [lia|]. rewrite Hd. reflexivity.
  - rewrite Z.shiftr_div_pow2 by lia. fold P.
    assert (Hd : (S * (P * Q) + E * P + M) / P = S * Q + E).
    { symmetry. apply (Z.div_unique _ _ _ M); lia. }
    rewrite Hd. symmetry. apply (Z.mod_unique _ _ S); lia.
  - symmetry. apply (Z.mod_unique _ _ (S * Q + E)); lia.
  - nia.
  - nia.
Qed.

Let prec := IEEE.fprec f.
Let emax := IEEE.femax f.

Lemma emax_double : 2 * emax = Q.
Proof.
  unfold emax, IEEE.femax, Q. rewrite (pow2_split (IEEE.ew f)) by lia.
  reflexivity.
Qed.

(** What validity says of a finite float: the significand has at most
    [prec] digits, exactly [prec] unless the exponent is minimal. *)
Lemma bounded_inv (m : positive) (e : Z) :
  bounded prec emax m e = true ->
  IEEE.femin f <= e <= emax - prec
  /\ Z.pos (digits2_pos m) <= prec
  /\ (Z.pos (digits2_pos m) < prec -> e = IEEE.femin f).
Proof.
  unfold bounded, canonical_mantissa, fexp, SpecFloat.emin, IEEE.femin.
  fold prec emax.
  intros H. apply andb_true_iff in H as [Hc He].
  apply Z.eqb_eq in Hc. apply Z.leb_le in He. lia.
Qed.

Lemma bits_finite (s : bool) (m : positive) (e : Z) :
  bounded prec emax m e = true ->
  exists E M,
    IEEE.bits_of_SF f (S754_finite s m e) = IEEE.sign_bit f s + E * P + M
    /\ 0 <= E < Q - 1 /\ 0 <= M < P
    /\ ((E = 0 /\ M = Z.pos m /\ e = IEEE.femin f)
        \/ (0 < E /\ M + P = Z.pos m /\ e = E + IEEE.femin f - 1)).
Proof.
  intros Hb. apply bounded_inv in Hb as (He & Hd & Hsub).
  pose proof emax_double as H2. pose proof P_pos as HP.
  pose proof Q_pos as HQ.
  assert (Hprec : prec = IEEE.mw f + 1) by reflexivity.
  assert (Hmin : IEEE.femin f = 3 - emax - prec) by reflexivity.
  cbn [IEEE.bits_of_SF]. fold P.
  destruct (Z.ltb_spec (Z.pos m) P) as [Hlt|Hge].
  - exists 0, (Z.pos m).
    split; [lia|]. split; [lia|]. split; [lia|].
    left. split; [reflexivity|]. split; [reflexivity|]. apply Hsub.
    pose proof (digits2_pos_le m (IEEE.mw f)) as Hle.
    unfold P in Hlt. lia.
  - exists (e - IEEE.femin f + 1), (Z.pos m - P).
    pose proof (digits2_pos_gt m (IEEE.mw f)) as Hgt.
    pose proof (digits2_pos_bounds m) as [_ Hhi].
    assert (Hdig : Z.pos (digits2_pos m) = IEEE.mw f + 1)
      by (unfold P in Hge; lia).
    rewrite Hdig, Z.pow_add_r in Hhi by lia. fold P in Hhi.
    change (2 ^ 1) with 2 in Hhi.
    split; [reflexivity|]. split; [lia|]. split; [lia|].
    right. lia.
Qed.

(** Reading the bit pattern of a valid float gives the float back. *)
Lemma SF_of_bits_of_SF (x : spec_float) :
  SpecFloat.valid_binary prec emax x = true ->
  IEEE.SF_of_bits f (IEEE.bits_of_SF f x) = x.
Proof.
  pose proof P_pos as HP. pose proof Q_pos as HQ.
  destruct x as [s|s| |s m e]; cbn [SpecFloat.valid_binary]; intros Hv.
  - cbn [IEEE.bits_of_SF].
    destruct (fields s 0 0) as (Hs & HE & HM & _); try lia.
    rewrite Z.mul_0_l, !Z.add_0_r in *.
    unfold IEEE.SF_of_bits. fold P Q. rewrite Hs, HE, HM. reflexivity.
  - cbn [IEEE.bits_of_SF]. fold P Q.
    destruct (fields s (Q - 1) 0) as (Hs & HE & HM & _); try lia.
    rewrite !Z.add_0_r in *.
    unfold IEEE.SF_of_bits. fold P Q. rewrite Hs, HE, HM.
    destruct (Z.eqb_spec (Q - 1) 0); [lia|].
    rewrite Z.eqb_refl. reflexivity.
  - cbn [IEEE.bits_of_SF]. fold P Q.
    assert (HM0 : 0 < 2 ^ (IEEE.mw f - 1) < P).
    { split; [apply Z.pow_pos_nonneg; lia|].
      unfold P. apply Z.pow_lt_mono_r; lia. }
    destruct (fields false (Q - 1) (2 ^ (IEEE.mw f - 1)))
      as (Hs & HE & HM & _); try lia.
    cbn [IEEE.sign_bit] in *. rewrite Z.add_0_l in *.
    unfold IEEE.SF_of_bits. fold P Q. rewrite HE, HM.
    destruct (Z.eqb_spec (Q - 1) 0); [lia|].
    rewrite Z.eqb_refl.
    destruct (Z.eqb_spec (2 ^ (IEEE.mw f - 1)) 0); [lia|reflexivity].
  - destruct (bits_finite s m e Hv) as (E & M & -> & HE & HM & Hcase).
    destruct (fields s E M) as (Hs & HE' & HM' & _); try lia.
    unfold IEEE.SF_of_bits. fold P Q. rewrite Hs, HE', HM'.
    destruct Hcase as [(-> & -> & ->)|(HE0 & HMm & ->)].
    + reflexivity.
    + destruct (Z.eqb_spec E 0); [lia|].
      destruct (Z.eqb_spec E (Q - 1)); [lia|].
      rewrite HMm. reflexivity.
Qed.

(** A bit pattern fills the width of the format and no more. *)
Lemma bits_of_SF_range (x : spec_float) :
  SpecFloat.valid_binary prec emax x = true ->
  0 <= IEEE.bits_of_SF f x < 2 ^ (IEEE.mw f + IEEE.ew f + 1).
Proof.
  pose proof P_pos as HP. pose proof Q_pos as HQ.
  rewrite !Z.pow_add_r by lia. fold P Q. change (2 ^ 1) with 2.
  destruct x as [s|s| |s m e]; cbn [SpecFloat.valid_binary]; intros Hv.
  - cbn [IEEE.bits_of_SF].
    destruct (fields s 0 0) as (_ & _ & _ & Hr); lia.
  - cbn [IEEE.bits_of_SF]. fold P Q.
    destruct (fields s (Q - 1) 0) as (_ & _ & _ & Hr); lia.
  - cbn [IEEE.bits_of_SF]. fold P Q.
    assert (HM0 : 0 < 2 ^ (IEEE.mw f - 1) < P).
    { split; [apply Z.pow_pos_nonneg; lia|].
      unfold P. apply Z.pow_lt_mono_r; lia. }
    destruct (fields false (Q - 1) (2 ^ (IEEE.mw f - 1)))
      as (_ & _ & _ & Hr); try lia.
    cbn [IEEE.sign_bit] in Hr. lia.
  - destruct (bits_finite s m e Hv) as (E & M & -> & HE & HM & _).
    destruct (fields s E M) as (_ & _ & _ & Hr); lia.
Qed.

(** The patterns read as NaN are those with an all-ones exponent and a
    non-zero fraction. *)
Lemma SF_of_bits_nan (b : Z) :
  IEEE.is_nan (IEEE.SF_of_bits f b) = nan_pattern f b.
Proof.
  unfold IEEE.SF_of_bits, nan_pattern. fold P Q.
  pose proof Q_pos as HQ.
  destruct (Z.eqb_spec (Z.shiftr b (IEEE.mw f) mod Q) 0) as [E0|E0].
  - rewrite E0. destruct (Z.eqb_spec 0 (Q - 1)); [lia|].
    cbn [andb]. destruct (b mod P); reflexivity.
  - destruct (Z.eqb_spec (Z.shiftr b (IEEE.mw f) mod Q) (Q - 1)) as [E1|E1].
    + cbn [andb]. destruct (b mod P =? 0); reflexivity.
    + cbn [andb]. destruct (b mod P + P); reflexivity.
Qed.

End Bits.

(** ** Exact conversions *)




Section Rounding.

Variables prec emax : Z.






End Rounding.


(** ** Primitive floats *)


Lemma Prim2SF_valid64 (x : float) :
  SpecFloat.valid_binary (IEEE.fprec IEEE.binary64) (IEEE.femax IEEE.binary64)
    (Prim2SF x) = true.
Proof. exact (Prim2SF_valid x). Qed.

(** ** Floating cells *)

Lemma format_width (t : DataType) :
  type_kind t = Floating ->
  1 <= IEEE.mw (type_format t) /\ 2 <= IEEE.ew (type_format t)
  /\ IEEE.mw (type_format t) + IEEE.ew (type_format t) + 1
     = 8 * Z.of_nat (width t).
Proof.
  destruct t; try discriminate; intros _; cbn; lia.
Qed.


(** ** Cells that a data type holds exactly *)

Lemma struct_pack_floating (fmt : string) (c : code) (x : float) :
  parse_fmt fmt = Some c -> code_kind c = Floating ->
  struct_pack fmt (PyFloat x) = pack_float c (Prim2SF x).
Proof.
  unfold struct_pack. intros -> ->. cbn [as_double bind].
  destruct (pack_float c (Prim2SF x)) as [bs|[]]; reflexivity.
Qed.



(** The bits of a NaN that is not the default one. *)
Lemma nan_bits (sign : bool) (fraction : Z) :
  nan_fraction sign fraction = true ->
  0 <= IEEE.sign_bit IEEE.binary64 sign
       + (2 ^ IEEE.ew IEEE.binary64 - 1) * 2 ^ IEEE.mw IEEE.binary64
       + fraction < 2 ^ 64
  /\ Z.testbit (IEEE.sign_bit IEEE.binary64 sign
                + (2 ^ IEEE.ew IEEE.binary64 - 1) * 2 ^ IEEE.mw IEEE.binary64
                + fraction) 63 = sign
  /\ (IEEE.sign_bit IEEE.binary64 sign
      + (2 ^ IEEE.ew IEEE.binary64 - 1) * 2 ^ IEEE.mw IEEE.binary64
      + fraction) mod 2 ^ 52 = fraction
  /\ IEEE.SF_of_bits IEEE.binary64
       (IEEE.sign_bit IEEE.binary64 sign
        + (2 ^ IEEE.ew IEEE.binary64 - 1) * 2 ^ IEEE.mw IEEE.binary64
        + fraction) = S754_nan.
Proof.
  intros Hf. unfold nan_fraction in Hf.
  apply andb_true_iff in Hf as [Hf _]. apply andb_true_iff in Hf as [H0 H1].
  apply Z.ltb_lt in H0, H1.
  assert (Hm : 1 <= IEEE.mw IEEE.binary64) by (cbn; lia).
  assert (He : 2 <= IEEE.ew IEEE.binary64) by (cbn; lia).
  destruct (fields IEEE.binary64 Hm He sign (2 ^ IEEE.ew IEEE.binary64 - 1)
              fraction) as (Hs & HE & HM & Hr).
  { cbn. lia. }
  { cbn [IEEE.mw IEEE.binary64]. lia. }
  cbv zeta in Hs, HE, HM, Hr.
  split; [exact Hr|]. split; [exact Hs|]. split; [exact HM|].
  unfold IEEE.SF_of_bits. rewrite HE, HM.
  change (2 ^ IEEE.ew IEEE.binary64 - 1 =? 0) with false.
  rewrite Z.eqb_refl. cbv iota.
  destruct (Z.eqb_spec fraction 0); [lia | reflexivity].
Qed.

(** A missing cell is written as the sentinel and read as missing. *)
Lemma pack_None (t : DataType) :
  exists c,
    pack (fmt_of t) (nodata_of t) PyNone = Ok c /\ decode_cell t c = PyNone.
Proof.
  destruct t; eexists; (split; [vm_compute; reflexivity|]); vm_compute;
    reflexivity.
Qed.





(** * The claims *)

(** ** Round trip *)

(** The float32 fixture of [test_arg_init] does not survive the round trip:
    1.1, -20.02 and 300.003 come back as the nearest binary32 floats. *)
Example float32_fixture_decoded :
  encode_type float32 [PyNone; PyFloat 1.1; PyFloat (-20.02); PyFloat 300.003]
  = Ok [x7f; xc0; x00; x00; x3f; x8c; xcc; xcd;
        xc1; xa0; x28; xf6; x43; x96; x00; x62]
  /\ decode float32
       [x7f; xc0; x00; x00; x3f; x8c; xcc; xcd;
        xc1; xa0; x28; xf6; x43; x96; x00; x62] 4
     = Ok [PyNone; PyFloat 0x1.19999ap+0; PyFloat (-0x1.4051ecp+4);
           PyFloat 0x1.2c00c4p+8].
Proof. split; vm_compute; reflexivity. Qed.




(** ** Sentinels *)

(** C2: for every data type, the row of [argTests] gives [encode] the
    sentinel of the specification: the minimum [-(2^(N-1))] of a signed
    N-bit type, the maximum [2^N - 1] of an unsigned N-bit type, a NaN for
    float32 and float64; [N] is the width of the format of the row.  A
    missing cell is written as that sentinel, and the reader recognises
    it. *)
Theorem nodata_sentinels (t : DataType) :
  In (tag t, fmt_of t, nodata_of t) all_formats
  /\ (exists c,
         parse_fmt (fmt_of t) = Some c
         /\ code_kind c = type_kind t
         /\ 8 * Z.of_nat (calcsize (fmt_of t)) = type_bits t)
  /\ match type_kind t with
     | Signed => nodata_of t = PyInt (- 2 ^ (type_bits t - 1))
     | Unsigned => nodata_of t = PyInt (2 ^ type_bits t - 1)
     | Floating =>
         exists x, nodata_of t = PyFloat x /\ PrimFloat.is_nan x = true
     end
  /\ pack (fmt_of t) (nodata_of t) PyNone = struct_pack (fmt_of t) (nodata_of t)
  /\ exists c,
       pack (fmt_of t) (nodata_of t) PyNone = Ok c /\ decode_cell t c = PyNone.
Proof.
  split; [|split; [|split; [|split]]].
  - rewrite all_formats_types.
    apply (in_map (fun t => (tag t, fmt_of t, nodata_of t))).
    destruct t; cbn; tauto.
  - exists (type_code t). rewrite parse_fmt_of, code_kind_type, calcsize_fmt_of.
    repeat split.
  - destruct t; cbn [type_kind]; try reflexivity;
      exists gdaltest_NaN; split; reflexivity.
  - destruct t; reflexivity.
  - apply pack_None.
Qed.

(** ** Values out of range *)

(** C3, as stated, fails: 40000 is outside the range of int16, and [encode]
    raises [struct.error] on it instead of emitting the wrapped bytes
    [9C 40]. *)
Lemma encode_int16_40000 :
  ~ (type_min int16 <= 40000 <= type_max int16)
  /\ encode_type int16 [PyInt 40000] = Raise StructError
  /\ ~ (exists b, encode_type int16 [PyInt 40000] = Ok b).
Proof.
  split; [cbv; intros [_ H]; now apply H|].
  split; [reflexivity|]. intros [b Hb]. discriminate Hb.
Qed.

(** C3, amended: for every integer data type, whatever the sentinel, a
    present value outside the range of the type makes [encode] fail with
    [struct.error] and no bytes are produced; a present value within the
    range is packed into the bytes of the value reduced modulo
    [2 ^ (8 * width)]. *)
Theorem encode_integer_range (t : DataType) (nodata : pyval) (z : Z) :
  type_kind t <> Floating ->
  (~ (type_min t <= z <= type_max t) ->
   forall values, In (PyInt z) values ->
                  encode (fmt_of t) nodata values = Raise StructError)
  /\ (type_min t <= z <= type_max t ->
      exists bs,
        pack (fmt_of t) nodata (PyInt z) = Ok bs
        /\ length bs = width t
        /\ bs = be_bytes (width t) (z mod 2 ^ (8 * Z.of_nat (width t)))
        /\ be_int bs = z mod 2 ^ (8 * Z.of_nat (width t))).
Proof.
  intros Hk.
  assert (Hc : code_kind (type_code t) <> Floating)
    by now rewrite code_kind_type.
  pose proof (struct_pack_integer (fmt_of t) (type_code t) z
                (parse_fmt_of t) Hc) as Hp.
  split.
  - intros Hz values Hin.
    assert (Hr : in_range (type_code t) z = false).
    { destruct (in_range (type_code t) z) eqn:E; [|reflexivity].
      apply in_range_type in E. contradiction. }
    rewrite Hr in Hp.
    destruct (traverse_raises (pack (fmt_of t) nodata) values (PyInt z)
                StructError Hin Hp) as [e He].
    unfold encode. rewrite He. cbn [bind]. f_equal.
    apply traverse_Raise in He as (v & _ & Hv).
    exact (struct_pack_integer_Raise _ _ _ _ (parse_fmt_of t) Hc Hv).
  - intros Hz. apply in_range_type in Hz. rewrite Hz in Hp.
    exists (be_bytes (width t) z). unfold pack.
    rewrite Hp, code_size_type, length_be_bytes, be_int_be_bytes, be_bytes_mod.
    repeat split.
Qed.

Lemma encode_integer_range_witness :
  (~ (type_min int16 <= 40000 <= type_max int16) ->
   forall values, In (PyInt 40000) values ->
                  encode (fmt_of int16) (PyInt 0) values = Raise StructError)
  /\ (type_min int16 <= 40000 <= type_max int16 ->
      exists bs,
        pack (fmt_of int16) (PyInt 0) (PyInt 40000) = Ok bs
        /\ length bs = width int16
        /\ bs = be_bytes (width int16)
                  (40000 mod 2 ^ (8 * Z.of_nat (width int16)))
        /\ be_int bs = 40000 mod 2 ^ (8 * Z.of_nat (width int16))).
Proof.
  apply (encode_integer_range int16 (PyInt 0) 40000). discriminate.
Defined.

(** ** The sentinel of int8 *)

(** C4: a missing int8 cell is stored as the byte [80], the two's-complement
    encoding of the sentinel -128 of the table, and the query for the int8
    sentinel answers 128, the unsigned reading of that byte and the value
    [test_arg_nodata] expects. *)
Theorem int8_nodata_duality :
  nodata_of int8 = PyInt (-128)
  /\ encode_type int8 [PyNone] = Ok [x80]
  /\ be_bytes 1 (-128) = [x80]
  /\ reported_nodata int8 = PyInt 128
  /\ be_int [x80] = 128
  /\ int8_nodata_expected = 128.
Proof. repeat split. Qed.

(** ** NaN cells *)

(** Quiet, signalling and negative NaNs are all read as no data, and an
    infinity is not. *)
Example decode_nan_patterns :
  decode float32
    [x7f; xc0; x00; x00;  xff; xc0; x00; x00;  x7f; x80; x00; x01;
     xff; xff; xff; xff;  x7f; x80; x00; x00] 5
  = Ok [PyNone; PyNone; PyNone; PyNone; PyFloat infinity].
Proof. vm_compute. reflexivity. Qed.

(** C5: for the floating types, the reader reports a cell as absent exactly
    when its bits are a NaN pattern, an all-ones exponent with any non-zero
    fraction and either sign, whether or not they are the bits of the
    sentinel. *)
Theorem decode_nan_absent (t : DataType) (buffer : list byte) (n i : nat)
        (out : list pyval) (cell : list byte) :
  type_kind t = Floating ->
  decode t buffer n = Ok out ->
  nth_error (cells (width t) n buffer) i = Some cell ->
  (nth_error out i = Some PyNone
   <-> nan_pattern (type_format t) (be_int cell) = true).
Proof.
  intros Hk Hd Hc. unfold decode in Hd.
  destruct (Nat.eqb _ _); [|discriminate]. injection Hd as <-.
  rewrite nth_error_map, Hc. cbn [option_map].
  destruct (format_width t Hk) as (Hm & He & _).
  rewrite <- (SF_of_bits_nan _ Hm He).
  unfold decode_cell. rewrite Hk.
  destruct (IEEE.is_nan _); split; intros H; try reflexivity; discriminate.
Qed.

Lemma decode_nan_absent_witness :
  nth_error [PyFloat 1; PyNone] 1 = Some PyNone
  <-> nan_pattern (type_format float32) (be_int [xff; x80; x00; x01]) = true.
Proof.
  apply (decode_nan_absent float32
           [x3f; x80; x00; x00; xff; x80; x00; x01] 2 1);
    [reflexivity | vm_compute; reflexivity | reflexivity].
Defined.

(** ** Truncated buffers *)

Lemma big_endian_value_be_int (bs : list byte) :
  big_endian_value bs = be_int bs.
Proof.
  induction bs as [|b bs IH]; [reflexivity|].
  cbn [big_endian_value]. now rewrite be_int_cons, IH.
Qed.

Lemma length_slice (w n i : nat) (buffer : list byte) :
  length buffer = (n * w)%nat -> (i < n)%nat ->
  length (firstn w (skipn (i * w) buffer)) = w.
Proof.
  intros Hl Hi. rewrite length_firstn, length_skipn, Hl. nia.
Qed.

Lemma signed_sentinel (bits raw : Z) :
  1 <= bits -> 0 <= raw < 2 ^ bits ->
  (signed_of bits raw =? - 2 ^ (bits - 1)) = (raw =? 2 ^ (bits - 1)).
Proof.
  intros Hb Hr. unfold signed_of. rewrite (pow2_split bits Hb) in *.
  assert (Hp : 0 < 2 ^ (bits - 1)) by (apply Z.pow_pos_nonneg; lia).
  destruct (Z.ltb_spec raw (2 ^ (bits - 1)));
    destruct (Z.eqb_spec raw (2 ^ (bits - 1)));
    match goal with |- (?a =? ?b) = _ => destruct (Z.eqb_spec a b) end;
    (reflexivity || lia).
Qed.

(** C6: the reader fails with [TruncatedDataError] when the length of the
    buffer is not [cellCount * width], and otherwise returns [cellCount]
    values, the [i]-th read from the [width] bytes at offset [i * width] as
    one big-endian value: the bytes, most significant first, give an
    unsigned integer below [2 ^ (8 * width)], which is the value of an
    unsigned type, the two's-complement pattern of the value of a signed
    type, and the bit pattern of the float of a floating type; the pattern
    of the sentinel, and every NaN pattern, is read as no data. *)
Theorem decode_length_check (t : DataType) (buffer : list byte)
        (cellCount : nat) :
  (length buffer <> (cellCount * width t)%nat ->
   decode t buffer cellCount = Raise TruncatedDataError)
  /\ (length buffer = (cellCount * width t)%nat ->
      exists out,
        decode t buffer cellCount = Ok out
        /\ length out = cellCount
        /\ concat (cells (width t) cellCount buffer) = buffer
        /\ forall i, (i < cellCount)%nat ->
             nth_error out i
             = Some (decode_cell t
                       (firstn (width t) (skipn (i * width t) buffer)))
             /\ exists raw,
                  raw = big_endian_value
                          (firstn (width t) (skipn (i * width t) buffer))
                  /\ 0 <= raw < 2 ^ (8 * Z.of_nat (width t))
                  /\ nth_error out i
                     = Some
                         match type_kind t with
                         | Unsigned =>
                             if raw =? 2 ^ type_bits t - 1 then PyNone
                             else PyInt raw
                         | Signed =>
                             if raw =? 2 ^ (type_bits t - 1) then PyNone
                             else PyInt (if raw <? 2 ^ (type_bits t - 1)
                                         then raw else raw - 2 ^ type_bits t)
                         | Floating =>
                             if nan_pattern (type_format t) raw then PyNone
                             else PyFloat
                                    (SF2Prim
                                       match t with
                                       | float32 =>
                                           IEEE.convert IEEE.binary64
                                             (IEEE.SF_of_bits (type_format t) raw)
                                       | _ => IEEE.SF_of_bits (type_format t) raw
                                       end)
                         end).
Proof.
  unfold decode. split; intros Hl.
  - apply Nat.eqb_neq in Hl. now rewrite Hl.
  - rewrite Hl, Nat.eqb_refl. eexists. split; [reflexivity|].
    split; [now rewrite length_map, length_cells|].
    split; [now apply concat_cells|].
    intros i Hi. rewrite nth_error_map, nth_error_cells by exact Hi.
    cbn [option_map]. split; [reflexivity|].
    set (cell := firstn (width t) (skipn (i * width t) buffer)).
    exists (big_endian_value cell). split; [reflexivity|].
    pose proof (be_int_range cell) as Hr.
    replace (length cell) with (width t) in Hr
      by (symmetry; apply (length_slice _ _ _ _ Hl Hi)).
    rewrite pow256 in Hr.
    rewrite big_endian_value_be_int. split; [exact Hr|].
    f_equal. unfold decode_cell. fold (type_bits t) in Hr.
    pose proof (type_bits_pos t) as Hb.
    destruct (type_kind t) eqn:Hk.
    + rewrite signed_sentinel by lia. reflexivity.
    + reflexivity.
    + destruct (format_width t Hk) as (Hm & He & _).
      rewrite (SF_of_bits_nan _ Hm He). reflexivity.
Qed.

(** The integer read from a cell is the big-endian value of its bytes. *)
Example decode_big_endian :
  decode uint32 [x01; x02; x03; x04; x00; x00; x01; x00] 2
  = Ok [PyInt 0x01020304; PyInt 256]
  /\ decode uint32 [x01; x02; x03; x04; x00; x00; x01] 2
     = Raise TruncatedDataError
  /\ decode uint32 [x01; x02; x03; x04; x00; x00; x01; x00] 1
     = Raise TruncatedDataError.
Proof. repeat split. Qed.

(** ** The int16 fixture *)

(** C7: with int16 and the cells [[None, 2, -3, -4]], [encode] produces the
    eight bytes [80 00 00 02 FF FD FF FC], the big-endian -32768, 2, -3 and
    -4, which is the payload written to the int16 file; decoding them with a
    cell count of 4 returns [[None, 2, -3, -4]]. *)
Theorem int16_fixture :
  encode ">h" (PyInt (- Z.shiftl 1 15)) [PyNone; PyInt 2; PyInt (-3); PyInt (-4)]
  = Ok [x80; x00; x00; x02; xff; xfd; xff; xfc]
  /\ In ("int16"%string, Ok [x80; x00; x00; x02; xff; xfd; xff; xfc]) arg_files
  /\ be_bytes 2 (-32768) ++ be_bytes 2 2 ++ be_bytes 2 (-3) ++ be_bytes 2 (-4)
     = [x80; x00; x00; x02; xff; xfd; xff; xfc]
  /\ sidecar int16
     = {| layerName := "arg-int16"; dataType := int16;
          xmin := 0; ymin := 0; xmax := 2; ymax := 2;
          cellWidth := 1; cellHeight := 1; rows := 2; cols := 2 |}
  /\ decode int16 [x80; x00; x00; x02; xff; xfd; xff; xfc] 4
     = Ok [PyNone; PyInt 2; PyInt (-3); PyInt (-4)].
Proof.
  split; [reflexivity|].
  split; [vm_compute; right; left; reflexivity|].
  split; [reflexivity|]. split; reflexivity.
Qed.

(** ** The size of the payload *)



(** ** The geotransform *)

(** C9: the geotransform derived from a grid's metadata has origin
    [(xmin, ymax)], pixel width [cellWidth] and pixel height [-cellHeight],
    without rotation; for xmin = 0, ymax = 2 and cells of 1 by 1 it is
    [(0, 1, 0, 2, 0, -1)], which is what [test_arg_getgeotransform] asserts
    of every file written from [argDefaults]. *)
Theorem geotransform_north_up (m : GridMetadata) :
  geotransform m
  = (xmin m, cellWidth m, 0%float, ymax m, 0%float, (- cellHeight m)%float)
  /\ (xmin m = 0%float -> ymax m = 2%float ->
      cellWidth m = 1%float -> cellHeight m = 1%float ->
      geotransform m = (0, 1, 0, 2, 0, -1)%float)
  /\ forall t, geotransform (sidecar t) = (0, 1, 0, 2, 0, -1)%float
               /\ geotransform_expected (geotransform (sidecar t)) = true.
Proof.
  split; [reflexivity|]. split.
  - intros Hx Hy Hw Hh. unfold geotransform. rewrite Hx, Hy, Hw, Hh.
    reflexivity.
  - intros t. split; reflexivity.
Qed.

(** ** Concatenation *)

(** C10: [encode] maps concatenation of value sequences to concatenation of
    byte buffers, and the empty sequence to the empty buffer, for every
    format and sentinel: encoding [v1 ++ v2] is encoding [v1], then [v2],
    and joining the two buffers, with the same exception when one of them
    raises. *)
Theorem encode_app (fmt : string) (nodata : pyval) (v1 v2 : list pyval) :
  encode fmt nodata (v1 ++ v2)
  = (b1 <- encode fmt nodata v1 ;; b2 <- encode fmt nodata v2 ;; Ok (b1 ++ b2))
  /\ encode fmt nodata [] = Ok [].
Proof.
  split; [|reflexivity].
  unfold encode. rewrite traverse_app.
  destruct (traverse (pack fmt nodata) v1) as [c1|e]; cbn [bind];
    [|reflexivity].
  destruct (traverse (pack fmt nodata) v2) as [c2|e]; cbn [bind];
    [|reflexivity].
  now rewrite concat_app.
Qed.


(** * Further properties of the writer *)

(** ** Order of evaluation *)

Lemma pack_fill (fmt : string) (nodata value : pyval) :
  pack fmt nodata value = struct_pack fmt (fill nodata value).
Proof. reflexivity. Qed.

(** X1: [encode] raises the exception of the first value that [pack]
    rejects, whatever follows it. *)
Theorem encode_first_failure (fmt : string) (nodata : pyval)
        (pre post : list pyval) (v : pyval) (e : exn) :
  Forall (fun x => exists c, pack fmt nodata x = Ok c) pre ->
  pack fmt nodata v = Raise e ->
  encode fmt nodata (pre ++ v :: post) = Raise e.
Proof.
  intros Hpre Hv. unfold encode. rewrite traverse_app.
  induction Hpre as [|x pre [c Hc] _ IH]; cbn [traverse bind].
  - rewrite Hv. reflexivity.
  - rewrite Hc. cbn [bind].
    destruct (traverse (pack fmt nodata) pre) as [us|e0]; cbn [bind] in *.
    + cbn [traverse bind] in IH. rewrite Hv in IH. cbn [bind] in IH.
      rewrite Hv. reflexivity.
    + exact IH.
Qed.

Lemma encode_first_failure_witness :
  encode ">f" (PyFloat gdaltest_NaN)
    ([PyNone; PyFloat 1.5] ++ PyFloat 1e39 :: [PyInt (10 ^ 400)])
  = Raise OverflowError.
Proof.
  apply encode_first_failure.
  - repeat apply Forall_cons; try apply Forall_nil;
      eexists; vm_compute; reflexivity.
  - vm_compute. reflexivity.
Defined.

(** ** Missing cells and the sentinel *)

(** X2: the payload does not tell a missing cell from a present cell that
    holds the sentinel: writing the sentinel in place of every [None] gives
    the same result, bytes or exception, for every format and sentinel. *)
Theorem encode_fill (fmt : string) (nodata : pyval) (values : list pyval) :
  encode fmt nodata (map (fill nodata) values) = encode fmt nodata values.
Proof.
  unfold encode. f_equal.
  induction values as [|v values IH]; cbn [map traverse]; [reflexivity|].
  rewrite IH. f_equal. rewrite !pack_fill. f_equal.
  destruct v; try reflexivity. destruct nodata; reflexivity.
Qed.

(** X3: the sentinel matters for missing cells only: sequences without
    [None] are encoded alike under any two sentinels. *)
Theorem encode_present (fmt : string) (nodata nodata' : pyval)
        (values : list pyval) :
  ~ In PyNone values ->
  encode fmt nodata values = encode fmt nodata' values.
Proof.
  intros Hn. unfold encode. f_equal.
  induction values as [|v values IH]; cbn [traverse]; [reflexivity|].
  rewrite IH by (intros H; apply Hn; now right). f_equal.
  destruct v; try reflexivity. exfalso. apply Hn. now left.
Qed.

Lemma encode_present_witness :
  encode ">h" (PyInt (-32768)) [PyInt 2; PyInt (-3)]
  = encode ">h" PyNone [PyInt 2; PyInt (-3)].
Proof.
  apply encode_present. intros [H|[H|[]]]; discriminate H.
Defined.

(** X4: a sentinel of [None] cannot stand for a missing cell: with
    [nodata = None], [encode] raises on every sequence that holds a
    [None], for every format of the fragment. *)
Theorem encode_nodata_None (fmt : string) (c : code) (values : list pyval) :
  parse_fmt fmt = Some c ->
  In PyNone values ->
  exists e, encode fmt PyNone values = Raise e.
Proof.
  intros Hp Hin.
  assert (Hn : pack fmt PyNone PyNone = Raise StructError).
  { unfold pack, struct_pack. rewrite Hp. destruct (code_kind c); reflexivity. }
  destruct (traverse_raises (pack fmt PyNone) values PyNone StructError Hin Hn)
    as [e He].
  exists e. unfold encode. now rewrite He.
Qed.

Lemma encode_nodata_None_witness :
  exists e, encode ">B" PyNone [PyInt 2; PyNone; PyInt 4] = Raise e.
Proof.
  apply (encode_nodata_None ">B" code_B); [reflexivity|]. right. now left.
Defined.

(** ** Exceptions *)

Lemma parse_fmt_f (fmt : string) : parse_fmt fmt = Some code_f -> fmt = ">f"%string.
Proof.
  destruct fmt as [|a [|b [|? ?]]]; try discriminate.
  - destruct a as [[] [] [] [] [] [] [] []]; discriminate.
  - destruct a as [[] [] [] [] [] [] [] []]; try discriminate.
    destruct b as [[] [] [] [] [] [] [] []]; try discriminate.
    reflexivity.
  - destruct a as [[] [] [] [] [] [] [] []]; discriminate.
Qed.

Lemma pack_float_Raise (c : code) (x : spec_float) (e : exn) :
  pack_float c x = Raise e ->
  e = OverflowError /\ c = code_f
  /\ IEEE.is_infinite x = false
  /\ IEEE.is_infinite (IEEE.convert IEEE.binary32 x) = true.
Proof.
  unfold pack_float. destruct c; cbn [code_format];
    try (destruct (IEEE.is_infinite x); discriminate).
  destruct (IEEE.is_infinite (IEEE.convert IEEE.binary32 x)) eqn:Ey;
    cbn [andb]; [|discriminate].
  destruct (IEEE.is_infinite x); cbn [negb]; [discriminate|].
  intros H. injection H as <-. repeat split.
Qed.

(** X5: under a format of the fragment, [encode] raises nothing but
    [struct.error], except [OverflowError] under [">f"], and then for a
    cell that holds a float, not an infinity, whose nearest binary32 is
    one; an integer cell never raises it.  The outcome is left unmodelled
    only for a NaN other than the default one under a floating format. *)
Theorem encode_exceptions (fmt : string) (c : code) (nodata : pyval)
        (values : list pyval) (e : exn) :
  parse_fmt fmt = Some c ->
  encode fmt nodata values = Raise e ->
  e = StructError
  \/ (e = OverflowError /\ fmt = ">f"%string
      /\ exists x : float,
           In (PyFloat x) (map (fill nodata) values)
           /\ IEEE.is_infinite (Prim2SF x) = false
           /\ IEEE.is_infinite (IEEE.convert IEEE.binary32 (Prim2SF x)) = true)
  \/ (e = NotModelled /\ code_kind c = Floating
      /\ exists sign fraction,
           In (PyNaN sign fraction) (map (fill nodata) values)).
Proof.
  intros Hp. unfold encode.
  destruct (traverse (pack fmt nodata) values) as [cs|e0] eqn:Et;
    cbn [bind]; [discriminate|].
  intros H. injection H as ->.
  apply traverse_Raise in Et as (v & Hin & Hv).
  apply (in_map (fill nodata)) in Hin.
  rewrite pack_fill in Hv. unfold struct_pack in Hv. rewrite Hp in Hv.
  destruct (code_kind c) eqn:Hk.
  1,2: left; destruct (fill nodata v) as [|z|x|sg fr]; try congruence;
       destruct (in_range c z); congruence.
  destruct (fill nodata v) as [|z|x|sg fr] eqn:Ev.
  - left. cbn in Hv. congruence.
  - left. cbn [as_double] in Hv.
    destruct (IEEE.is_infinite _); cbn [bind] in Hv; [congruence|].
    destruct (pack_float c _) as [bs|e1] eqn:Ep; [discriminate|].
    apply pack_float_Raise in Ep as (-> & _). congruence.
  - right. left. cbn [as_double bind] in Hv.
    destruct (pack_float c (Prim2SF x)) as [bs|e1] eqn:Ep.
    + destruct bs; discriminate.
    + apply pack_float_Raise in Ep as (-> & -> & Hx & Hy).
      injection Hv as <-. split; [reflexivity|].
      split; [exact (parse_fmt_f fmt Hp)|].
      exists x. repeat split; assumption.
  - right. right. unfold pack_nan in Hv.
    assert (e = NotModelled).
    { destruct c; try congruence.
      destruct (nan_fraction sg fr); congruence. }
    subst e. split; [reflexivity|]. split; [reflexivity|].
    now exists sg, fr.
Qed.

Lemma encode_exceptions_witness :
  OverflowError = StructError
  \/ (OverflowError = OverflowError /\ ">f"%string = ">f"%string
      /\ exists x : float,
           In (PyFloat x) (map (fill (PyFloat nan)) [PyFloat 1e39])
           /\ IEEE.is_infinite (Prim2SF x) = false
           /\ IEEE.is_infinite (IEEE.convert IEEE.binary32 (Prim2SF x)) = true)
  \/ (OverflowError = NotModelled /\ code_kind code_f = Floating
      /\ exists sign fraction,
           In (PyNaN sign fraction) (map (fill (PyFloat nan)) [PyFloat 1e39])).
Proof.
  apply (encode_exceptions ">f" code_f (PyFloat nan) [PyFloat 1e39]);
    [reflexivity | vm_compute; reflexivity].
Defined.

(** An integer too large for binary32 raises [struct.error] under [">f"],
    where the float of the same value raises [OverflowError]. *)
Example pack_f_too_large :
  pack ">f" PyNone (PyInt (2 ^ 128)) = Raise StructError
  /\ pack ">f" PyNone (PyFloat 0x1p+128) = Raise OverflowError
  /\ pack ">f" PyNone (PyInt (2 ^ 127)) = Ok [x7f; x00; x00; x00]
  /\ pack ">d" PyNone (PyInt (10 ^ 400)) = Raise StructError.
Proof. repeat split; vm_compute; reflexivity. Qed.

(** ** What the payload determines *)

Lemma be_bytes_inj (w : nat) (lo a b : Z) :
  lo <= a < lo + 2 ^ (8 * Z.of_nat w) ->
  lo <= b < lo + 2 ^ (8 * Z.of_nat w) ->
  be_bytes w a = be_bytes w b -> a = b.
Proof.
  intros Ha Hb H. apply (f_equal be_int) in H.
  rewrite !be_int_be_bytes in H.
  set (M := 2 ^ (8 * Z.of_nat w)) in *.
  assert (HM : 0 < M) by (apply Z.pow_pos_nonneg; lia).
  pose proof (Z.div_mod a M ltac:(lia)) as Da.
  pose proof (Z.div_mod b M ltac:(lia)) as Db.
  assert (Hd : a - b = M * (a / M - b / M)) by lia.
  assert (a / M - b / M = 0) by nia.
  lia.
Qed.

Lemma code_range_width (c : code) :
  code_kind c <> Floating ->
  code_max c = code_min c + 2 ^ (8 * Z.of_nat (code_size c)) - 1.
Proof.
  intros Hk. unfold code_max, code_min. fold (code_bits c).
  assert (Hb : 1 <= code_bits c) by (destruct c; cbv; discriminate).
  destruct (code_kind c); [|lia|contradiction].
  rewrite (pow2_split (code_bits c)) by exact Hb. lia.
Qed.

Lemma app_inj_length {A : Type} (a b c d : list A) :
  length a = length b -> a ++ c = b ++ d -> a = b /\ c = d.
Proof.
  revert b. induction a as [|x a IH]; intros [|y b] Hl H; try discriminate.
  - now split.
  - cbn [app] in H. injection H as -> H. injection Hl as Hl.
    destruct (IH b Hl H) as [-> ->]. now split.
Qed.

Lemma concat_uniform_inj {A : Type} (w : nat) (xs ys : list (list A)) :
  (0 < w)%nat ->
  Forall (fun c => length c = w) xs -> Forall (fun c => length c = w) ys ->
  concat xs = concat ys -> xs = ys.
Proof.
  intros Hw Hx. revert ys.
  induction Hx as [|x xs Hlx _ IH]; intros ys Hy Hc.
  - destruct Hy as [|y ys Hly _]; [reflexivity|].
    cbn [concat] in Hc. destruct y; [cbn in Hly; lia | discriminate].
  - destruct Hy as [|y ys Hly Hy].
    + cbn [concat] in Hc. destruct x; [cbn in Hlx; lia | discriminate].
    + cbn [concat] in Hc.
      apply app_inj_length in Hc; [|congruence].
      destruct Hc as [-> Hc]. f_equal. now apply IH.
Qed.

(** X6: under an integer format the payload determines the sequence up to
    the sentinel: two sequences with the same encoding agree once every
    [None] is replaced by the sentinel. *)
Theorem encode_integer_injective (fmt : string) (c : code) (nodata : pyval)
        (v1 v2 : list pyval) (b : list byte) :
  parse_fmt fmt = Some c -> code_kind c <> Floating ->
  encode fmt nodata v1 = Ok b -> encode fmt nodata v2 = Ok b ->
  map (fill nodata) v1 = map (fill nodata) v2.
Proof.
  intros Hp Hk H1 H2.
  apply encode_Ok in H1 as (c1 & F1 & ->).
  apply encode_Ok in H2 as (c2 & F2 & Hc).
  destruct (Forall2_pack_length _ _ _ _ F1) as [_ W1].
  destruct (Forall2_pack_length _ _ _ _ F2) as [_ W2].
  assert (Hw : (0 < calcsize fmt)%nat).
  { unfold calcsize. rewrite Hp. destruct c; cbn; lia. }
  apply (concat_uniform_inj _ _ _ Hw W1 W2) in Hc. subst c2.
  clear W1 W2. revert v2 F2.
  induction F1 as [|x ch v1 c1 Hx _ IH]; intros v2 F2;
    inversion F2 as [|y ch' v2' c1' Hy F2']; subst; [reflexivity|].
  cbn [map]. f_equal; [|now apply IH].
  rewrite pack_fill in Hx, Hy.
  pose proof (code_range_width c Hk) as Hr.
  revert Hx Hy. generalize (fill nodata x) (fill nodata y).
  intros [|zx|fx|sx px] [|zy|fy|sy py] Hx Hy;
    try (unfold struct_pack in Hx; rewrite Hp in Hx;
         destruct (code_kind c); [discriminate|discriminate|contradiction]);
    try (unfold struct_pack in Hy; rewrite Hp in Hy;
         destruct (code_kind c); [discriminate|discriminate|contradiction]).
  rewrite (struct_pack_integer _ _ zx Hp Hk) in Hx.
  rewrite (struct_pack_integer _ _ zy Hp Hk) in Hy.
  destruct (in_range c zx) eqn:Rx; [|discriminate].
  destruct (in_range c zy) eqn:Ry; [|discriminate].
  injection Hx as <-. injection Hy as Hy.
  unfold in_range in Rx, Ry.
  apply andb_true_iff in Rx as [Rx1 Rx2]. apply andb_true_iff in Ry as [Ry1 Ry2].
  apply Z.leb_le in Rx1, Rx2, Ry1, Ry2.
  f_equal. symmetry.
  apply (be_bytes_inj (code_size c) (code_min c)); [lia | lia | exact Hy].
Qed.

Lemma encode_integer_injective_witness :
  map (fill (PyInt 255)) [PyNone; PyInt 2] = map (fill (PyInt 255)) [PyInt 255; PyInt 2].
Proof.
  apply (encode_integer_injective ">B" code_B (PyInt 255) _ _ [xff; x02]);
    [reflexivity | discriminate | reflexivity | reflexivity].
Defined.

(** X7: [">d"] accepts every float and is lossless on floats: two floats
    with the same eight bytes are the same float, the two zeros and the
    NaNs of either sign and any payload included; [">f"] is not, as 1.1 and
    its nearest binary32 show. *)
Theorem pack_double_injective (nodata : pyval) :
  (forall x : float, exists bs, pack ">d" nodata (PyFloat x) = Ok bs)
  /\ (forall sign fraction,
         nan_fraction sign fraction = true ->
         exists bs, pack ">d" nodata (PyNaN sign fraction) = Ok bs)
  /\ (forall (v1 v2 : pyval) (bs : list byte),
         is_float v1 = true -> is_float v2 = true ->
         pack ">d" nodata v1 = Ok bs -> pack ">d" nodata v2 = Ok bs ->
         v1 = v2)
  /\ pack ">d" nodata (PyFloat 0) <> pack ">d" nodata (PyFloat (-0))
  /\ pack ">d" nodata (PyFloat nan)
     = Ok [x7f; xf8; x00; x00; x00; x00; x00; x00]
  /\ pack ">d" nodata (PyNaN true (2 ^ 51))
     = Ok [xff; xf8; x00; x00; x00; x00; x00; x00]
  /\ pack ">d" nodata (PyNaN false 1)
     = Ok [x7f; xf0; x00; x00; x00; x00; x00; x01]
  /\ pack ">f" nodata (PyFloat 1.1) = pack ">f" nodata (PyFloat 0x1.19999ap+0).
Proof.
  assert (Hd : forall z, pack ">d" nodata (PyFloat z)
                         = Ok (be_bytes 8 (IEEE.bits_of_SF IEEE.binary64 (Prim2SF z)))).
  { intros z. unfold pack. rewrite (struct_pack_floating _ code_d) by reflexivity.
    unfold pack_float. destruct (IEEE.is_infinite (Prim2SF z)); reflexivity. }
  assert (Hn : forall sg fr,
             pack ">d" nodata (PyNaN sg fr) = pack_nan code_d sg fr)
    by reflexivity.
  assert (Hm : 1 <= IEEE.mw IEEE.binary64) by (cbn; lia).
  assert (He : 2 <= IEEE.ew IEEE.binary64) by (cbn; lia).
  assert (Hmix : forall x sg fr bs,
             pack ">d" nodata (PyFloat x) = Ok bs ->
             pack ">d" nodata (PyNaN sg fr) = Ok bs -> False).
  { intros x sg fr bs H1 H2. rewrite Hd in H1. rewrite Hn in H2.
    unfold pack_nan in H2.
    destruct (nan_fraction sg fr) eqn:Hf; [|discriminate].
    apply Ok_inj in H1, H2. subst bs.
    destruct (nan_bits sg fr Hf) as (Hr & Hs & Hp & Hnan).
    pose proof (bits_of_SF_range _ Hm He _ (Prim2SF_valid64 x)) as Rx.
    apply (be_bytes_inj 8 0) in H2; [|exact Hr|exact Rx].
    pose proof (SF_of_bits_of_SF _ Hm He _ (Prim2SF_valid64 x)) as Hx.
    rewrite <- H2, Hnan in Hx.
    rewrite <- Hx in H2. cbn [IEEE.bits_of_SF] in H2.
    rewrite H2 in Hs, Hp.
    assert (sg = false) by (rewrite <- Hs; vm_compute; reflexivity).
    assert (fr = 2 ^ 51) by (rewrite <- Hp; vm_compute; reflexivity).
    subst sg fr. vm_compute in Hf. discriminate Hf. }
  split; [|split; [|split; [|split; [|split; [|split; [|split]]]]]].
  - intros x. rewrite Hd. now eexists.
  - intros sg fr Hf. rewrite Hn. unfold pack_nan. rewrite Hf. now eexists.
  - intros [|z1|x|s1 p1] [|z2|y|s2 p2] bs F1 F2 H1 H2; try discriminate.
    + rewrite Hd in H1, H2. rewrite <- H2 in H1. apply Ok_inj in H1.
      pose proof (bits_of_SF_range _ Hm He _ (Prim2SF_valid64 x)) as Rx.
      pose proof (bits_of_SF_range _ Hm He _ (Prim2SF_valid64 y)) as Ry.
      apply (be_bytes_inj 8 0) in H1; [|exact Rx|exact Ry].
      f_equal. apply Prim2SF_inj.
      rewrite <- (SF_of_bits_of_SF _ Hm He _ (Prim2SF_valid64 x)).
      rewrite <- (SF_of_bits_of_SF _ Hm He _ (Prim2SF_valid64 y)).
      now rewrite H1.
    + destruct (Hmix x s2 p2 bs H1 H2).
    + destruct (Hmix y s1 p1 bs H2 H1).
    + rewrite Hn in H1, H2. unfold pack_nan in H1, H2.
      destruct (nan_fraction s1 p1) eqn:Hf1; [|discriminate].
      destruct (nan_fraction s2 p2) eqn:Hf2; [|discriminate].
      rewrite <- H2 in H1. apply Ok_inj in H1.
      destruct (nan_bits s1 p1 Hf1) as (R1 & S1 & P1 & _).
      destruct (nan_bits s2 p2 Hf2) as (R2 & S2 & P2 & _).
      apply (be_bytes_inj 8 0) in H1; [|exact R1|exact R2].
      rewrite H1 in S1, P1. congruence.
  - vm_compute. discriminate.
  - vm_compute. reflexivity.
  - vm_compute. reflexivity.
  - vm_compute. reflexivity.
  - vm_compute. reflexivity.
Qed.

(** ** Byte order and sign *)

Lemma be_bytes_extend (k w : nat) (z : Z) :
  - 2 ^ (8 * Z.of_nat w) <= z < 2 ^ (8 * Z.of_nat w) ->
  be_bytes (k + w) z = repeat (sign_byte z) k ++ be_bytes w z.
Proof.
  intros Hz. induction k as [|k IH]; [reflexivity|].
  cbn [Nat.add be_bytes repeat app]. rewrite IH. f_equal.
  rewrite Z.shiftr_div_pow2 by lia.
  assert (HP : 2 ^ (8 * Z.of_nat w) <= 2 ^ (8 * Z.of_nat (k + w)))
    by (apply Z.pow_le_mono_r; lia).
  unfold sign_byte. destruct (Z.ltb_spec z 0) as [Hn|Hp].
  - replace (z / 2 ^ (8 * Z.of_nat (k + w))) with (-1); [reflexivity|].
    apply (Z.div_unique z _ (-1) (z + 2 ^ (8 * Z.of_nat (k + w)))); lia.
  - rewrite Z.div_small by lia. reflexivity.
Qed.

Lemma in_range_wider (c1 c2 : code) (z : Z) :
  code_kind c1 = code_kind c2 -> (code_size c1 <= code_size c2)%nat ->
  in_range c1 z = true -> in_range c2 z = true.
Proof.
  intros Hk Hs. unfold in_range, code_min, code_max, code_bits.
  rewrite <- Hk, !andb_true_iff, !Z.leb_le.
  assert (H1 : 1 <= 8 * Z.of_nat (code_size c1)) by (destruct c1; cbn; lia).
  assert (Hm : 2 ^ (8 * Z.of_nat (code_size c1) - 1)
               <= 2 ^ (8 * Z.of_nat (code_size c2) - 1))
    by (apply Z.pow_le_mono_r; lia).
  assert (Hu : 2 ^ (8 * Z.of_nat (code_size c1))
               <= 2 ^ (8 * Z.of_nat (code_size c2)))
    by (apply Z.pow_le_mono_r; lia).
  destruct (code_kind c1); lia.
Qed.

(** X8: the most significant byte comes first and negative integers are in
    two's complement: an integer that a format holds is packed by a wider
    format of the same signedness into the same bytes preceded by sign
    bytes, [FF] for a negative value and [00] otherwise. *)
Theorem pack_sign_extension (fmt1 fmt2 : string) (c1 c2 : code)
        (nodata : pyval) (z : Z) :
  parse_fmt fmt1 = Some c1 -> parse_fmt fmt2 = Some c2 ->
  code_kind c1 = code_kind c2 -> code_kind c1 <> Floating ->
  (code_size c1 <= code_size c2)%nat ->
  in_range c1 z = true ->
  exists bs,
    pack fmt1 nodata (PyInt z) = Ok bs
    /\ pack fmt2 nodata (PyInt z)
       = Ok (repeat (sign_byte z) (code_size c2 - code_size c1) ++ bs).
Proof.
  intros Hp1 Hp2 Hk Hf Hs Hr.
  pose proof (in_range_wider c1 c2 z Hk Hs Hr) as Hr2.
  exists (be_bytes (code_size c1) z). unfold pack. cbn [fill].
  rewrite (struct_pack_integer _ _ z Hp1 Hf), Hr.
  rewrite (struct_pack_integer _ _ z Hp2) by (now rewrite <- Hk).
  rewrite Hr2. split; [reflexivity|]. f_equal.
  rewrite <- be_bytes_extend.
  - f_equal. lia.
  - pose proof (code_range_width c1 Hf) as Hw.
    unfold in_range in Hr. apply andb_true_iff in Hr as [Hlo Hhi].
    apply Z.leb_le in Hlo, Hhi.
    assert (Hmin : - 2 ^ (8 * Z.of_nat (code_size c1)) <= code_min c1 <= 0).
    { unfold code_min, code_bits.
      assert (H1 : 1 <= 8 * Z.of_nat (code_size c1))
        by (destruct c1; cbn; lia).
      rewrite (pow2_split (8 * Z.of_nat (code_size c1))) by exact H1.
      assert (0 < 2 ^ (8 * Z.of_nat (code_size c1) - 1))
        by (apply Z.pow_pos_nonneg; lia).
      destruct (code_kind c1); lia. }
    lia.
Qed.

Lemma pack_sign_extension_witness :
  exists bs,
    pack ">h" PyNone (PyInt (-3)) = Ok bs
    /\ pack ">q" PyNone (PyInt (-3))
       = Ok (repeat (sign_byte (-3)) (code_size code_q - code_size code_h) ++ bs).
Proof.
  apply (pack_sign_extension ">h" ">q" code_h code_q);
    try reflexivity; [discriminate | cbn; lia].
Defined.

(** ** Cells are independent *)







(** * Further properties of the fixtures *)

(** ** The sidecar *)

Lemma render_Text (ps : list piece) (m : dict) (s : string) :
  render ps m = Text s ->
  forall key conv, In (Conv key conv) ps ->
    exists v s', dict_get m key = Some v /\ convert_value conv v = Text s'.
Proof.
  revert s. induction ps as [|p ps IH]; intros s H key conv Hin;
    [destruct Hin|].
  cbn [render] in H.
  destruct p as [c|k cv].
  - destruct (render ps m) as [s'| |] eqn:Er; try discriminate.
    destruct Hin as [Hin|Hin]; [discriminate|]. now apply (IH s').
  - destruct (dict_get m k) as [v|] eqn:Eg; [|discriminate].
    destruct (convert_value cv v) as [s1| |] eqn:Ec; try discriminate.
    destruct (render ps m) as [s'| |] eqn:Er; try discriminate.
    destruct Hin as [Hin|Hin].
    + injection Hin as <- <-. exists v, s1. now split.
    + now apply (IH s').
Qed.

Lemma append_assoc (a b c : string) : ((a ++ b) ++ c = a ++ (b ++ c))%string.
Proof.
  induction a as [|x a IH]; cbn [String.append]; [reflexivity|].
  now rewrite IH.
Qed.

(** The keys that [argJsontpl] names, in the order of the template. *)
Lemma argJsontpl_keys :
  exists ps,
    parse_template InText argJsontpl = Some ps
    /\ forall key,
         In key ["fmt"; "dt"; "xmin"; "ymin"; "xmax"; "ymax"; "width";
                 "height"; "rows"; "cols"]%string ->
         exists conv, In (Conv key conv) ps.
Proof.
  eexists. split; [vm_compute; reflexivity|].
  intros key Hin. cbn [In] in Hin.
  repeat (destruct Hin as [<-|Hin];
          [eexists; cbn [In];
           repeat (first [left; reflexivity | right])|]).
  destruct Hin.
Qed.

(** X10: the template needs the names that [meta.update] adds.  Formatting
    it with a mapping succeeds only if the mapping has every key the
    template names; with [argDefaults] alone it raises [KeyError] for
    ["fmt"]; and with the updated copy it succeeds for every name, giving
    the geometry with six decimals. *)
Theorem sidecar_needs_update :
  (forall (m : dict) (s : string),
      format_mapping argJsontpl m = Text s ->
      forall key,
        In key ["fmt"; "dt"; "xmin"; "ymin"; "xmax"; "ymax"; "width";
                "height"; "rows"; "cols"]%string ->
        dict_get m key <> None)
  /\ format_mapping argJsontpl argDefaults_dict = Failed (KeyError "fmt")
  /\ forall name : string,
       sidecar_text name
       = Text (String.concat newline
                 [ "{";
                   "    " ++ quoted "layer" ++ ": " ++ quoted ("arg-" ++ name) ++ ",";
                   "    " ++ quoted "type" ++ ": " ++ quoted "arg" ++ ",";
                   "    " ++ quoted "datatype" ++ ": " ++ quoted name ++ ",";
                   "    " ++ quoted "xmin" ++ ": 0.000000,";
                   "    " ++ quoted "ymin" ++ ": 0.000000,";
                   "    " ++ quoted "xmax" ++ ": 2.000000,";
                   "    " ++ quoted "ymax" ++ ": 2.000000,";
                   "    " ++ quoted "cellwidth" ++ ": 1.000000,";
                   "    " ++ quoted "cellheight" ++ ": 1.000000,";
                   "    " ++ quoted "rows" ++ ": 2,";
                   "    " ++ quoted "cols" ++ ": 2";
                   "}" ]%string).
Proof.
  split; [|split].
  - intros m s H key Hin.
    destruct argJsontpl_keys as (ps & Hp & Hk).
    unfold format_mapping in H. rewrite Hp in H.
    destruct (Hk key Hin) as [conv Hc].
    destruct (render_Text ps m s H key conv Hc) as (v & _ & -> & _).
    discriminate.
  - vm_compute. reflexivity.
  - intros name. unfold quoted. cbn [String.concat].
    rewrite !append_assoc. vm_compute. reflexivity.
Qed.

(** ** Files written and removed *)

Lemma write_file_same (fs : files) (path : string) (c : content) :
  write_file fs path c path = Some c.
Proof. unfold write_file. now rewrite String.eqb_refl. Qed.

Lemma write_file_other (fs : files) (path p : string) (c : content) :
  p <> path -> write_file fs path c p = fs p.
Proof.
  intros H. unfold write_file. apply String.eqb_neq in H. now rewrite H.
Qed.

Lemma write_fixtures_ok (rs : list (list pyval * (string * string * pyval))) :
  NoDup (paths_of (names_of rs)) ->
  Forall (fun r => exists b s,
              encode (snd (fst (snd r))) (snd (snd r)) (fst r) = Ok b
              /\ sidecar_text (fst (fst (snd r))) = Text s) rs ->
  forall fs : files,
  exists fs',
    write_fixtures fs rs = (fs', None)
    /\ Forall (row_written fs') rs
    /\ forall p, ~ In p (paths_of (names_of rs)) -> fs' p = fs p.
Proof.
  induction rs as [|r rs IH]; intros Hnd Hok fs.
  - exists fs. repeat split. constructor.
  - inversion Hok as [|? ? (b & s & Hb & Hs) Hok']; subst.
    destruct r as [values [[name fmt] nodata]]. cbn [fst snd] in Hb, Hs.
    cbn [names_of map paths_of flat_map fst snd app] in Hnd.
    fold (names_of rs) in Hnd. fold (paths_of (names_of rs)) in Hnd.
    inversion Hnd as [|? ? Ha Hnd1]; subst.
    inversion Hnd1 as [|? ? Hj Hnd2]; subst.
    assert (Haj : json_path name <> arg_path name)
      by (intros E; apply Ha; left; exact E).
    set (fs1 := write_file
                  (write_file
                     (write_file (write_file fs (arg_path name) (Bytes []))
                                 (arg_path name) (Bytes b))
                     (json_path name) (Chars ""))
                  (json_path name) (Chars s)).
    destruct (IH Hnd2 Hok' fs1) as (fs' & Hw & Hrows & Hout).
    exists fs'. split; [|split].
    + cbn [write_fixtures write_fixture]. rewrite Hb.
      unfold sidecar_text, meta_of in Hs. rewrite Hs. exact Hw.
    + constructor; [|exact Hrows].
      exists b, s. cbn [fst snd]. repeat split; try assumption.
      * rewrite Hout by (intros E; apply Ha; now right).
        subst fs1. rewrite !write_file_other by (intros E; now apply Haj).
        apply write_file_same.
      * rewrite Hout by exact Hj. subst fs1. apply write_file_same.
    + intros p Hp.
      cbn [names_of map paths_of flat_map fst snd app In] in Hp.
      fold (names_of rs) in Hp. fold (paths_of (names_of rs)) in Hp.
      rewrite Hout by tauto. subst fs1.
      rewrite !write_file_other; [reflexivity| | | |];
        intros E; apply Hp; subst; tauto.
Qed.

Lemma remove_fixtures_ok (names : list string) :
  NoDup (paths_of names) ->
  forall fs : files,
  (forall p, In p (paths_of names) -> fs p <> None) ->
  exists fs',
    remove_fixtures fs names = (fs', None)
    /\ forall p, fs' p = if in_dec string_dec p (paths_of names)
                         then None else fs p.
Proof.
  induction names as [|name names IH]; intros Hnd fs Hall.
  - exists fs. split; [reflexivity|]. intros p. reflexivity.
  - cbn [paths_of flat_map app] in Hnd, Hall. fold (paths_of names) in Hnd, Hall.
    inversion Hnd as [|? ? Ha Hnd1]; subst.
    inversion Hnd1 as [|? ? Hj Hnd2]; subst.
    assert (Haj : json_path name <> arg_path name)
      by (intros E; apply Ha; left; exact E).
    cbn [remove_fixtures]. unfold remove_file at 1.
    destruct (fs (arg_path name)) eqn:Ea;
      [|exfalso; apply (Hall (arg_path name)); [now left | exact Ea]].
    unfold remove_file at 1.
    apply String.eqb_neq in Haj. rewrite Haj.
    destruct (fs (json_path name)) eqn:Ej;
      [|exfalso; apply (Hall (json_path name)); [right; now left | exact Ej]].
    match goal with |- context [remove_fixtures ?f names] => set (fs2 := f) end.
    destruct (IH Hnd2 fs2) as (fs' & Hr & Hp).
    + intros p Hin. subst fs2. cbv beta.
      destruct (String.eqb_spec p (json_path name)) as [->|_];
        [contradiction|].
      destruct (String.eqb_spec p (arg_path name)) as [->|_].
      * exfalso. apply Ha. now right.
      * apply Hall. right. now right.
    + exists fs'. split; [exact Hr|]. intros p. rewrite Hp.
      cbn [paths_of flat_map app]. fold (paths_of names).
      destruct (in_dec string_dec p (paths_of names)) as [Hin|Hin];
        destruct (in_dec string_dec p
                    (arg_path name :: json_path name :: paths_of names))
        as [Hin'|Hin']; try reflexivity.
      * exfalso. apply Hin'. right. now right.
      * subst fs2. cbv beta.
        destruct (String.eqb_spec p (json_path name)) as [->|Nj];
          [reflexivity|].
        destruct (String.eqb_spec p (arg_path name)) as [->|Na];
          [reflexivity|].
        exfalso. destruct Hin' as [E|[E|E]]; [now apply Na | now apply Nj | now apply Hin].
      * subst fs2. cbv beta.
        destruct (String.eqb_spec p (json_path name)) as [->|Nj].
        -- exfalso. apply Hin'. right. now left.
        -- destruct (String.eqb_spec p (arg_path name)) as [->|Na];
             [|reflexivity].
           exfalso. apply Hin'. now left.
Qed.

Lemma fixture_paths_NoDup : NoDup fixture_paths.
Proof.
  assert (H : nodup string_dec fixture_paths = fixture_paths)
    by (vm_compute; reflexivity).
  rewrite <- H. apply NoDup_nodup.
Qed.

Lemma fixture_rows_ok :
  Forall (fun r => exists b s,
              encode (snd (fst (snd r))) (snd (snd r)) (fst r) = Ok b
              /\ sidecar_text (fst (fst (snd r))) = Text s) fixture_rows.
Proof.
  repeat apply Forall_cons; try apply Forall_nil;
    eexists _, _; split; vm_compute; reflexivity.
Qed.

Lemma test_arg_init_writes (gdal_open : files -> string -> bool) (st : harness) :
  exists fs,
    write_fixtures (disk st) fixture_rows = (fs, None)
    /\ Forall (row_written fs) fixture_rows
    /\ (forall p, ~ In p fixture_paths -> fs p = disk st p)
    /\ test_arg_init true gdal_open st
       = if gdal_open fs (arg_path probe_name)
         then (Passed, {| argDriver := true; disk := fs |})
         else (Skipped, {| argDriver := false; disk := fs |}).
Proof.
  destruct (write_fixtures_ok fixture_rows fixture_paths_NoDup fixture_rows_ok
              (disk st)) as (fs & Hw & Hrows & Hout).
  exists fs. repeat split; try assumption.
  unfold test_arg_init. cbn [negb]. rewrite Hw. reflexivity.
Qed.

Lemma row_written_paths (fs : files) :
  Forall (row_written fs) fixture_rows ->
  forall p, In p fixture_paths -> fs p <> None.
Proof.
  intros Hrows p Hin. unfold fixture_paths, fixture_names in Hin.
  apply in_flat_map in Hin as (name & Hname & Hp).
  apply in_map_iff in Hname as (r & <- & Hr).
  rewrite Forall_forall in Hrows.
  destruct (Hrows r Hr) as (b & s & _ & _ & Ha & Hj).
  destruct Hp as [<-|[<-|[]]]; congruence.
Qed.

(** X11: when the driver is found and opens the probe file,
    [test_arg_init] passes and leaves, for every row of [argTests], the
    payload of [encode] in the [.arg] file and the formatted template in the
    [.json] file; [test_arg_destroy] then passes and removes exactly those
    twenty files, so that every other file is as it was before the tests
    and no fixture is left. *)
Theorem fixtures_written_and_removed
        (gdal_open : files -> string -> bool) (st : harness) :
  gdal_open (disk (snd (test_arg_init true gdal_open st))) (arg_path probe_name)
  = true ->
  fst (test_arg_init true gdal_open st) = Passed
  /\ Forall (row_written (disk (snd (test_arg_init true gdal_open st))))
       fixture_rows
  /\ fst (test_arg_destroy (snd (test_arg_init true gdal_open st))) = Passed
  /\ forall p,
       disk (snd (test_arg_destroy (snd (test_arg_init true gdal_open st)))) p
       = if in_dec string_dec p fixture_paths then None else disk st p.
Proof.
  destruct (test_arg_init_writes gdal_open st) as (fs & _ & Hrows & Hout & ->).
  destruct (gdal_open fs (arg_path probe_name)) eqn:Eo; cbn [fst snd disk];
    intros Hopen; [clear Hopen | congruence].
  split; [reflexivity|]. split; [exact Hrows|].
  destruct (remove_fixtures_ok fixture_names fixture_paths_NoDup fs
              (row_written_paths fs Hrows)) as (fs' & Hr & Hp).
  unfold test_arg_destroy. cbn [argDriver negb disk]. rewrite Hr.
  cbn [fst snd disk]. split; [reflexivity|].
  intros p. rewrite Hp.
  change (paths_of fixture_names) with fixture_paths.
  destruct (in_dec string_dec p fixture_paths) as [Hin|Hin];
    [reflexivity | now apply Hout].
Qed.

Lemma fixtures_written_and_removed_witness :
  fst (test_arg_init true (fun _ _ => true)
         {| argDriver := false; disk := fun _ => None |}) = Passed
  /\ Forall (row_written
               (disk (snd (test_arg_init true (fun _ _ => true)
                             {| argDriver := false; disk := fun _ => None |}))))
       fixture_rows
  /\ fst (test_arg_destroy
            (snd (test_arg_init true (fun _ _ => true)
                    {| argDriver := false; disk := fun _ => None |}))) = Passed
  /\ forall p,
       disk (snd (test_arg_destroy
                    (snd (test_arg_init true (fun _ _ => true)
                            {| argDriver := false; disk := fun _ => None |})))) p
       = if in_dec string_dec p fixture_paths then None else None.
Proof.
  apply (fixtures_written_and_removed (fun _ _ => true)
           {| argDriver := false; disk := fun _ => None |}).
  reflexivity.
Defined.

(** X12: when the driver is found but does not open the probe file,
    [test_arg_init] unsets [gdaltest.argDriver] and skips after the files
    are written, [test_arg_destroy] skips as well, and the twenty fixture
    files are left behind. *)
Theorem fixtures_left_behind
        (gdal_open : files -> string -> bool) (st : harness) :
  gdal_open (disk (snd (test_arg_init true gdal_open st))) (arg_path probe_name)
  = false ->
  test_arg_init true gdal_open st
  = (Skipped, {| argDriver := false;
                 disk := disk (snd (test_arg_init true gdal_open st)) |})
  /\ test_arg_destroy (snd (test_arg_init true gdal_open st))
     = (Skipped, snd (test_arg_init true gdal_open st))
  /\ Forall (row_written
               (disk (snd (test_arg_destroy
                             (snd (test_arg_init true gdal_open st))))))
       fixture_rows.
Proof.
  destruct (test_arg_init_writes gdal_open st) as (fs & _ & Hrows & Hout & ->).
  destruct (gdal_open fs (arg_path probe_name)) eqn:Eo; cbn [fst snd disk];
    intros Hopen; [congruence | clear Hopen].
  split; [reflexivity|]. split; [reflexivity|]. exact Hrows.
Qed.

Lemma fixtures_left_behind_witness :
  test_arg_init true (fun _ _ => false)
    {| argDriver := false; disk := fun _ => None |}
  = (Skipped,
     {| argDriver := false;
        disk := disk (snd (test_arg_init true (fun _ _ => false)
                             {| argDriver := false; disk := fun _ => None |})) |})
  /\ test_arg_destroy
       (snd (test_arg_init true (fun _ _ => false)
               {| argDriver := false; disk := fun _ => None |}))
     = (Skipped,
        snd (test_arg_init true (fun _ _ => false)
               {| argDriver := false; disk := fun _ => None |}))
  /\ Forall (row_written
               (disk (snd (test_arg_destroy
                             (snd (test_arg_init true (fun _ _ => false)
                                     {| argDriver := false;
                                        disk := fun _ => None |}))))))
       fixture_rows.
Proof.
  apply (fixtures_left_behind (fun _ _ => false)
           {| argDriver := false; disk := fun _ => None |}).
  reflexivity.
Defined.

(** X13: [test_arg_destroy] is not safe to run without the fixtures: with
    the driver set, when the [.arg] file of a row is missing and the files
    of the rows before it are there, it raises [FileNotFoundError] for that
    file, having removed the files of the rows before it and nothing
    else. *)
Theorem test_arg_destroy_missing (st : harness) (pre post : list string)
        (name : string) :
  argDriver st = true ->
  fixture_names = pre ++ name :: post ->
  (forall p, In p (paths_of pre) -> disk st p <> None) ->
  disk st (arg_path name) = None ->
  fst (test_arg_destroy st) = Errored (FileNotFoundError (arg_path name))
  /\ forall p,
       disk (snd (test_arg_destroy st)) p
       = if in_dec string_dec p (paths_of pre) then None else disk st p.
Proof.
  intros Hd Hn Hpre Hmiss. unfold test_arg_destroy. rewrite Hd. cbn [negb].
  assert (Hnd : NoDup (paths_of pre ++ paths_of (name :: post))).
  { pose proof fixture_paths_NoDup as H. unfold fixture_paths in H.
    rewrite Hn in H. fold (paths_of (pre ++ name :: post)) in H.
    unfold paths_of in H. rewrite flat_map_app in H. exact H. }
  rewrite Hn. clear Hn Hd.
  assert (G : forall fs : files,
             (forall p, In p (paths_of pre) -> fs p <> None) ->
             fs (arg_path name) = None ->
             exists fs',
               remove_fixtures fs (pre ++ name :: post)
               = (fs', Some (FileNotFoundError (arg_path name)))
               /\ forall p, fs' p = if in_dec string_dec p (paths_of pre)
                                    then None else fs p).
  { clear Hpre Hmiss st. induction pre as [|n pre IH]; intros fs Hpre Hmiss.
    - exists fs. cbn [app remove_fixtures]. unfold remove_file.
      rewrite Hmiss. split; reflexivity.
    - cbn [paths_of flat_map app] in Hnd, Hpre. fold (paths_of pre) in Hnd, Hpre.
      fold (paths_of (name :: post)) in Hnd.
      inversion Hnd as [|? ? Ha Hnd1]; subst.
      inversion Hnd1 as [|? ? Hj Hnd2]; subst.
      assert (Haj : json_path n <> arg_path n)
        by (intros E; apply Ha; left; exact E).
      cbn [app remove_fixtures]. unfold remove_file at 1.
      destruct (fs (arg_path n)) eqn:Ea;
        [|exfalso; apply (Hpre (arg_path n)); [now left | exact Ea]].
      unfold remove_file at 1.
      apply String.eqb_neq in Haj. rewrite Haj.
      destruct (fs (json_path n)) eqn:Ej;
        [|exfalso; apply (Hpre (json_path n)); [right; now left | exact Ej]].
      match goal with
      | |- context [remove_fixtures ?f (pre ++ _)] => set (fs2 := f)
      end.
      assert (Hname : arg_path name <> arg_path n
                      /\ arg_path name <> json_path n).
      { split; intros E.
        - apply Ha. right. apply in_or_app. right. rewrite <- E. now left.
        - apply Hj. apply in_or_app. right. rewrite <- E. now left. }
      destruct (IH Hnd2 fs2) as (fs' & Hr & Hp).
      + intros p Hin. subst fs2. cbv beta.
        destruct (String.eqb_spec p (json_path n)) as [->|_].
        * exfalso. apply Hj. apply in_or_app. now left.
        * destruct (String.eqb_spec p (arg_path n)) as [->|_].
          -- exfalso. apply Ha. right. apply in_or_app. now left.
          -- apply Hpre. right. now right.
      + subst fs2. cbv beta.
        destruct (String.eqb_spec (arg_path name) (json_path n)) as [E|_];
          [now destruct Hname|].
        destruct (String.eqb_spec (arg_path name) (arg_path n)) as [E|_];
          [now destruct Hname|].
        exact Hmiss.
      + exists fs'. split; [exact Hr|]. intros p. rewrite Hp.
        cbn [paths_of flat_map app]. fold (paths_of pre).
        destruct (in_dec string_dec p (paths_of pre)) as [Hin|Hin];
          destruct (in_dec string_dec p
                      (arg_path n :: json_path n :: paths_of pre))
          as [Hin'|Hin']; try reflexivity.
        * exfalso. apply Hin'. right. now right.
        * subst fs2. cbv beta.
          destruct (String.eqb_spec p (json_path n)) as [->|Nj];
            [reflexivity|].
          destruct (String.eqb_spec p (arg_path n)) as [->|Na];
            [reflexivity|].
          exfalso. destruct Hin' as [E|[E|E]];
            [now apply Na | now apply Nj | now apply Hin].
        * subst fs2. cbv beta.
          destruct (String.eqb_spec p (json_path n)) as [->|Nj].
          -- exfalso. apply Hin'. right. now left.
          -- destruct (String.eqb_spec p (arg_path n)) as [->|Na];
               [|reflexivity].
             exfalso. apply Hin'. now left. }
  destruct (G (disk st) Hpre Hmiss) as (fs' & -> & Hp).
  cbn [fst snd disk]. split; [reflexivity | exact Hp].
Qed.

Lemma test_arg_destroy_missing_witness :
  fst (test_arg_destroy {| argDriver := true; disk := fun _ => None |})
  = Errored (FileNotFoundError (arg_path "int8"))
  /\ forall p,
       disk (snd (test_arg_destroy
                    {| argDriver := true; disk := fun _ => None |})) p
       = if in_dec string_dec p (paths_of []) then None else None.
Proof.
  apply (test_arg_destroy_missing
           {| argDriver := true; disk := fun _ => None |} []
           ["int16"; "int32"; "int64"; "uint8"; "uint16"; "uint32"; "uint64";
            "float32"; "float64"]%string "int8");
    [reflexivity | reflexivity | intros p [] | reflexivity].
Defined.
